(** * Livebox client: a shallow embedding of the Go package [livebox]

    The development follows the layout of the package: the string helpers the
    code takes from the Go library, the protocol codec ([protocol.go]), the
    port-range codec and the port forwarding service ([port_forwarding.go]),
    the request executor ([request.go]), the session manager ([client.go]),
    the cookie renaming transport and the Terraform resource built on top. *)

From Stdlib Require Import ZArith String Ascii List Lia Bool.
From Stdlib Require Import DecimalString DecimalZ DecimalFacts.
From stdpp Require Import gmap strings list.

Open Scope string_scope.
Open Scope Z_scope.

(** ** Go's [int]

    The package uses Go's [int] throughout; on the 64-bit targets the provider
    is built for it is a two's complement 64-bit integer.  We keep it as a
    mathematical integer and write the wrap-around out. *)

Module GoInt.

Definition minInt : Z := - 2 ^ 63.
Definition maxInt : Z := 2 ^ 63 - 1.

Definition inRange (z : Z) : Prop := minInt <= z <= maxInt.
Definition inRangeb (z : Z) : bool := (minInt <=? z) && (z <=? maxInt).

Definition wrap (z : Z) : Z := (z + 2 ^ 63) mod 2 ^ 64 - 2 ^ 63.

Definition add (a b : Z) : Z := wrap (a + b).
Definition sub (a b : Z) : Z := wrap (a - b).

End GoInt.

(** ** Errors

    Go errors are values; the package builds them with [errors.New], wraps
    them with [fmt.Errorf("...: %w", err)] and receives them from the library
    (transport, JSON, [strconv]). *)

Inductive error : Type :=
| ErrNew (msg : string)               (* errors.New(msg), fmt.Errorf(msg) *)
| ErrWrap (ctx : string) (e : error)  (* fmt.Errorf("ctx: %w", e) *)
| ErrAPI (raw : string)               (* fmt.Errorf("api error: %s", raw) *)
| ErrNum (fn input : string)          (* *strconv.NumError *)
| ErrLib (what : string)              (* an error value produced by the library *)
| ErrPanic (what : string).           (* a run-time panic *)

Inductive Result (A : Type) : Type :=
| Ok (a : A)
| Err (e : error).

Arguments Ok {A} a.
Arguments Err {A} e.

Definition isOk {A} (r : Result A) : bool :=
  match r with Ok _ => true | Err _ => false end.

(** [if err != nil { return fmt.Errorf("ctx: %w", err) }] *)
Definition wrapErr {A} (ctx : string) (r : Result A) : Result A :=
  match r with
  | Ok a => Ok a
  | Err e => Err (ErrWrap ctx e)
  end.

(** ** The [strings] and [strconv] functions the package calls *)

Module GoStrings.

Fixpoint drop (n : nat) (s : string) : string :=
  match n, s with
  | O, _ => s
  | S _, EmptyString => EmptyString
  | S k, String _ t => drop k t
  end.

(** [strings.HasPrefix] *)
Definition HasPrefix (s p : string) : bool := String.prefix p s.

(** [strings.Contains(s, substr)]: some suffix of [s] starts with [substr]. *)
Fixpoint Contains (s sub : string) : bool :=
  HasPrefix s sub ||
  match s with
  | EmptyString => false
  | String _ t => Contains t sub
  end.

(** [strings.Cut(s, sep)]: the text before and after the first instance of
    [sep], the way [genSplit] walks with [Index]. *)
Fixpoint Cut (s sep : string) : option (string * string) :=
  if HasPrefix s sep then Some (EmptyString, drop (String.length sep) s)
  else match s with
       | EmptyString => None
       | String c t =>
           match Cut t sep with
           | Some (a, b) => Some (String c a, b)
           | None => None
           end
       end.

(** [strings.SplitN(s, sep, n)] for a non-empty separator and [n >= 0]:
    at most [n] substrings, the last one the unsplit remainder. *)
Fixpoint SplitN (s sep : string) (n : nat) : list string :=
  match n with
  | O => []
  | S O => [s]
  | S n' =>
      match Cut s sep with
      | Some (a, b) => a :: SplitN b sep n'
      | None => [s]
      end
  end.

(** [strings.TrimPrefix] *)
Definition TrimPrefix (s p : string) : string :=
  if HasPrefix s p then drop (String.length p) s else s.

(** [strings.ReplaceAll(s, old, new)] for a non-empty [old]: instances are
    found left to right and do not overlap.  [skip] counts the characters of
    the instance just replaced that are still to be passed over. *)
Fixpoint replaceFrom (old new : string) (skip : nat) (s : string) : string :=
  match s with
  | EmptyString => EmptyString
  | String c t =>
      match skip with
      | S k => replaceFrom old new k t
      | O =>
          if HasPrefix s old
          then new ++ replaceFrom old new (Nat.pred (String.length old)) t
          else String c (replaceFrom old new O t)
      end
  end.

Definition ReplaceAll (s old new : string) : string :=
  replaceFrom old new O s.

End GoStrings.

Module GoStrconv.

(** [strconv.Itoa]: decimal digits, a leading minus sign for negatives. *)
Definition Itoa (n : Z) : string := NilZero.string_of_int (Z.to_int n).

(** [strconv.Atoi]: an optional sign followed by at least one decimal digit
    and nothing else; the value has to fit an [int].  Every failure is a
    [*NumError] naming the function and the input. *)
Definition Atoi (s : string) : Result Z :=
  match s with
  | EmptyString => Err (ErrNum "Atoi" s)
  | String c rest =>
      let '(neg, ds) :=
        if Ascii.eqb c "-"%char then (true, rest)
        else if Ascii.eqb c "+"%char then (false, rest)
        else (false, s) in
      match ds with
      | EmptyString => Err (ErrNum "Atoi" s)
      | _ =>
          match NilEmpty.uint_of_string ds with
          | None => Err (ErrNum "Atoi" s)
          | Some u =>
              let v := if neg then - Z.of_uint u else Z.of_uint u in
              if GoInt.inRangeb v then Ok v else Err (ErrNum "Atoi" s)
          end
      end
  end.

End GoStrconv.

Import GoStrings GoStrconv.

(** ** protocol.go *)

(** [type Protocol string]: any string is a value of the type; four of them
    are named. *)
Definition Protocol : Type := string.

Definition ProtocolUnknown : Protocol := "unknown".
Definition ProtocolTCP : Protocol := "tcp".
Definition ProtocolUDP : Protocol := "udp".
Definition ProtocolTCPUDP : Protocol := "tcp/udp".

Definition intString (p : Protocol) : string :=
  if String.eqb p ProtocolTCP then "6"
  else if String.eqb p ProtocolUDP then "17"
  else if String.eqb p ProtocolTCPUDP then "6,17"
  else EmptyString.

Definition parseProtocol (p : string) : Protocol :=
  if String.eqb p "6" then ProtocolTCP
  else if String.eqb p "17" then ProtocolUDP
  else if String.eqb p "6,17" then ProtocolTCPUDP
  else ProtocolUnknown.

(** ** port_forwarding.go: the port-range codec *)

(** [parsePortRange]: a port, with an optional range written "10000-10005". *)
Definition parsePortRange (port : string) : Result (Z * Z) :=
  match SplitN port "-" 2 with
  | [] => Err (ErrPanic "index out of range")
  | p0 :: rest =>
      match Atoi p0 with
      | Err e => Err (ErrWrap "parse external port" e)
      | Ok externalPortStart =>
          match rest with
          | [] => Ok (externalPortStart, 0)
          | p1 :: _ =>
              match Atoi p1 with
              | Err e => Err (ErrWrap "parse external port range" e)
              | Ok externalPortEnd =>
                  Ok (externalPortStart, GoInt.sub externalPortEnd externalPortStart)
              end
          end
      end
  end.

(** [formatPortRange]: the opposite direction. *)
Definition formatPortRange (port portRange : Z) : string :=
  if (portRange =? 0) || (portRange =? 1) then Itoa port
  else Itoa port ++ "-" ++ Itoa (GoInt.add port portRange).

(** ** Data model *)

(** [map[string]any], with the three kinds of value the package stores. *)
Inductive any : Type :=
| AString (s : string)
| AInt (n : Z)
| ABool (b : bool).

Record apiRequest : Type := {
  Method : string;
  Service : string;
  Parameters : gmap string any
}.

(** [json.RawMessage] fields are byte strings. *)
Record apiResponse : Type := {
  Status : string;
  Errors : string
}.

(** What decoding an object leaves in a [json.RawMessage] field tagged
    [name]: the bytes of the value of the last member matched to the field,
    and no byte when the object has no such member.  [members] lists the
    members of the object in their order, each under the tag of the field it
    is matched to, with the bytes of its value. *)
Definition rawField (name : string) (members : list (string * string)) : string :=
  fold_left (fun raw member => if String.eqb (fst member) name then snd member else raw)
            members EmptyString.

(** The [apiResponse] a decoded object with these members gives. *)
Definition envelopeOf (members : list (string * string)) : apiResponse :=
  {| Status := rawField "status" members; Errors := rawField "errors" members |}.

(** The anonymous struct [login] decodes into; [Data.ContextID]. *)
Record loginResponse : Type := {
  ContextID : string
}.

Record PortForwarding : Type := {
  Name : string;
  Protocol_ : Protocol;
  ExternalPort : Z;
  InternalPort : Z;
  PortRange : Z;
  Destination : string;
  Enabled : bool
}.

Record getPortForwardingResp : Type := {
  rID : string;
  rOrigin : string;
  rDescription : string;
  rStatus : string;
  rSourceInterface : string;
  rProtocol : string;
  rExternalPort : string;
  rInternalPort : string;
  rSourcePrefix : string;
  rDestinationIPAddress : string;
  rDestinationMACAddress : string;
  rLeaseDuration : Z;
  rHairpinNAT : bool;
  rSymmetricSNAT : bool;
  rUPnPV1Compat : bool;
  rEnable : bool
}.

Record PortForwardingConfig : Type := {
  cName : string;
  cExternalPort : Z;
  cInternalPort : Z;
  cPortRange : Z;
  cProtocol : Protocol;
  cDestination : string;
  cEnabled : bool
}.

(** ** HTTP messages *)

(** [http.Header] is [map[string][]string]; the keys used here are already in
    canonical form. *)
Definition headerGet (h : gmap string (list string)) (key : string) : string :=
  match h !! key with
  | Some (v :: _) => v
  | _ => EmptyString
  end.

Definition headerSet (h : gmap string (list string)) (key value : string)
  : gmap string (list string) :=
  <[key := [value]]> h.

(** [h[key][0] = value]; the code guards it by [Get] having returned the
    text it searches, so the slice is not empty there. *)
Definition headerSetFirst (h : gmap string (list string)) (key value : string)
  : gmap string (list string) :=
  alter (fun vs => <[0%nat := value]> vs) key h.


Record Request : Type := {
  reqMethod : string;
  reqURL : string;
  reqHeader : gmap string (list string);
  reqBody : string
}.

Record Response : Type := {
  StatusCode : Z;
  respHeader : gmap string (list string);
  respBody : string
}.

Definition withReqHeader (r : Request) (h : gmap string (list string)) : Request :=
  {| reqMethod := reqMethod r; reqURL := reqURL r; reqHeader := h; reqBody := reqBody r |}.

Definition withRespHeader (r : Response) (h : gmap string (list string)) : Response :=
  {| StatusCode := StatusCode r; respHeader := h; respBody := respBody r |}.

(** ** The library underneath

    What the package takes from [encoding/json], [net/http], [net] and the
    run time is a parameter of the development: the router and the network are
    a state of type [World] that only a round trip changes. *)

Class Library : Type := {
  World : Type;
  (** [json.Marshal] of a request envelope *)
  jsonMarshal : apiRequest -> Result string;
  (** the URL parsing in [http.NewRequest] *)
  parseURL : string -> Result unit;
  (** [http.Transport.RoundTrip] *)
  transportRoundTrip : Request -> World -> Result Response * World;
  (** [http.Client.Do] over a given round tripper, with its cookie jar *)
  clientDo : (Request -> World -> Result Response * World) ->
             Request -> World -> Result Response * World;
  (** [json.NewDecoder(body).Decode] into an [apiResponse] *)
  decodeEnvelope : string -> Result apiResponse;
  (** [json.NewDecoder(body).Decode] into the login structure *)
  decodeLogin : string -> Result loginResponse;
  (** [json.Unmarshal] into [map[string]getPortForwardingResp] *)
  unmarshalPortForwardings : string -> Result (gmap string getPortForwardingResp);
  (** the order in which [range] visits a map: unspecified, each entry once *)
  mapRange : gmap string getPortForwardingResp -> list (string * getPortForwardingResp);
  mapRange_perm : forall m, mapRange m ≡ₚ map_to_list m;
  (** [net.ParseIP]; [None] is the nil address *)
  ParseIP : string -> option (list Z)
}.

Section Livebox.

Context `{Library}.

(** A computation that may fail and may talk to the router. *)
Definition M (A : Type) : Type := World -> Result A * World.

Definition ret {A} (r : Result A) : M A := fun w => (r, w).

Definition bind {A B} (m : M A) (k : A -> M B) : M B :=
  fun w =>
    match m w with
    | (Ok a, w') => k a w'
    | (Err e, w') => (Err e, w')
    end.

Definition wrapM {A} (ctx : string) (m : M A) : M A :=
  fun w => let '(r, w') := m w in (wrapErr ctx r, w').

(** ** client.go: the client *)

Record HTTPClient : Type := {
  Transport : Request -> World -> Result Response * World
}.

Record Client : Type := {
  host : string;
  token : string;
  httpClient : HTTPClient
}.

(** [http.NewRequest(http.MethodPost, url, bytes.NewReader(b))] *)
Definition NewRequest (method url body : string) : Result Request :=
  match parseURL url with
  | Err e => Err e
  | Ok _ => Ok {| reqMethod := method; reqURL := url; reqHeader := ∅; reqBody := body |}
  end.

Definition setHeader (r : Request) (key value : string) : Request :=
  withReqHeader r (headerSet (reqHeader r) key value).

(** ** request.go: the request executor *)

(** The request both entry points put on the wire, up to the value of the
    [Authorization] header. *)
Definition buildRequest (c : Client) (authorization : string) (r : apiRequest)
  : Result Request :=
  match jsonMarshal r with
  | Err e => Err e
  | Ok b =>
      match NewRequest "POST" (host c ++ "/ws") b with
      | Err e => Err e
      | Ok req =>
          Ok (setHeader (setHeader req "Authorization" authorization)
                        "Content-Type" "application/x-sah-ws-4-call+json")
      end
  end.

Definition doReq (c : Client) (r : apiRequest) : M string :=
  bind (ret (buildRequest c ("X-Sah " ++ token c) r)) (fun req =>
  bind (clientDo (Transport (httpClient c)) req) (fun resp =>
  bind (ret (decodeEnvelope (respBody resp))) (fun apiResp =>
  if (0 <? String.length (Errors apiResp))%nat
  then ret (Err (ErrAPI (Errors apiResp)))
  else ret (Ok (Status apiResp))))).

Definition doAuthReq (c : Client) (r : apiRequest) : M Response :=
  bind (ret (buildRequest c "X-Sah-Login" r)) (fun req =>
  clientDo (Transport (httpClient c)) req).

(** ** The cookie renaming transport *)

Definition realCookieName : string := "/sessid".
Definition patchedCookieName : string := "-sessid".

Definition patchRequest (req : Request) : Request :=
  if Contains (headerGet (reqHeader req) "Cookie") patchedCookieName
  then withReqHeader req
         (headerSetFirst (reqHeader req) "Cookie"
            (ReplaceAll (headerGet (reqHeader req) "Cookie")
                        patchedCookieName realCookieName))
  else req.

Definition patchResponse (resp : Response) : Response :=
  if Contains (headerGet (respHeader resp) "Set-Cookie") realCookieName
  then withRespHeader resp
         (headerSetFirst (respHeader resp) "Set-Cookie"
            (ReplaceAll (headerGet (respHeader resp) "Set-Cookie")
                        realCookieName patchedCookieName))
  else resp.

(** [cookieNamePatcher.RoundTrip] over the transport it embeds. *)
Definition cookieNamePatcher_RoundTrip
    (transport : Request -> World -> Result Response * World)
    (req : Request) : M Response :=
  bind (transport (patchRequest req)) (fun resp =>
  ret (Ok (patchResponse resp))).

(** ** client.go: the session manager *)

Definition loginPayload (password : string) : apiRequest :=
  {| Service := "sah.Device.Information";
     Method := "createContext";
     Parameters :=
       <["applicationName" := AString "webui"]>
       (<["username" := AString "admin"]>
       (<["password" := AString password]> ∅)) |}.

Definition withToken (c : Client) (t : string) : Client :=
  {| host := host c; token := t; httpClient := httpClient c |}.

(** [login] returns an error or assigns [c.token]; the client it leaves
    behind is the result. *)
Definition login (c : Client) (password : string) : M Client :=
  bind (doAuthReq c (loginPayload password)) (fun resp =>
  bind (ret (decodeLogin (respBody resp))) (fun lr =>
  ret (Ok (withToken c (ContextID lr))))).

(** [cookiejar.New(nil)] does not fail; the jar is part of the world. *)
Definition NewClient (host_ password : string) : M Client :=
  login {| host := host_;
           token := EmptyString;
           httpClient := {| Transport := cookieNamePatcher_RoundTrip transportRoundTrip |} |}
        password.

(** ** port_forwarding.go: the port forwarding service *)

Definition listPayload : apiRequest :=
  {| Service := "Firewall";
     Method := "getPortForwarding";
     Parameters := <["origin" := AString "webui"]> ∅ |}.

(** The body of the loop of [ListPortForwardings] for one map entry. *)
Definition decodeEntry (id : string) (raw : getPortForwardingResp)
  : Result PortForwarding :=
  match parsePortRange (rExternalPort raw) with
  | Err e => Err (ErrWrap "parse port range" e)
  | Ok (externalPort, portRange) =>
      match Atoi (rInternalPort raw) with
      | Err e => Err (ErrWrap "parse internal port" e)
      | Ok internalPort =>
          Ok {| Name := TrimPrefix id "webui_";
                Protocol_ := parseProtocol (rProtocol raw);
                ExternalPort := externalPort;
                InternalPort := internalPort;
                PortRange := portRange;
                Destination := rDestinationIPAddress raw;
                Enabled := rEnable raw |}
      end
  end.

(** The loop: [out] grows by one record per entry, the first entry that does
    not decode ends the call. *)
Fixpoint decodeEntries (entries : list (string * getPortForwardingResp))
    (out : list PortForwarding) : Result (list PortForwarding) :=
  match entries with
  | [] => Ok out
  | (id, raw) :: rest =>
      match decodeEntry id raw with
      | Err e => Err e
      | Ok pf => decodeEntries rest (out ++ [pf])
      end
  end.

Definition ListPortForwardings (c : Client) : M (list PortForwarding) :=
  bind (wrapM "do request" (doReq c listPayload)) (fun data =>
  bind (ret (wrapErr "unmarshal data" (unmarshalPortForwardings data))) (fun pfr =>
  ret (decodeEntries (mapRange pfr) []))).

Definition GetPortForwarding (c : Client) (name : string) : M PortForwarding :=
  bind (wrapM "list port forwardings" (ListPortForwardings c)) (fun pfs =>
  match List.find (fun pf => String.eqb (Name pf) name) pfs with
  | Some pf => ret (Ok pf)
  | None => ret (Err (ErrNew "port forward not found"))
  end).

Definition portInvalid (p : Z) : bool := (p <? 1) || (65535 <? p).

Definition quoted (s : string) : string :=
  String (ascii_of_nat 34) s ++ String (ascii_of_nat 34) EmptyString.

(** [PortForwardingConfig.validate] *)
Definition validate (c : PortForwardingConfig) : Result unit :=
  if String.eqb (cName c) EmptyString then
    Err (ErrNew "empty name")
  else if portInvalid (cExternalPort c) then
    Err (ErrNew "invalid external port; must be between 1 and 65535")
  else if portInvalid (cInternalPort c) then
    Err (ErrNew "invalid external port; must be between 1 and 65535")
  else if (cPortRange c <? 0) || (65535 <? cPortRange c) then
    Err (ErrNew "invalid port range; must be between 1 and 65535")
  else if negb (String.eqb (cProtocol c) ProtocolTCP)
          && negb (String.eqb (cProtocol c) ProtocolUDP)
          && negb (String.eqb (cProtocol c) ProtocolTCPUDP) then
    Err (ErrNew ("invalid protocol; must be one of: " ++ quoted "tcp" ++ ", "
                 ++ quoted "udp" ++ " or " ++ quoted "tcp/udp"))
  else match ParseIP (cDestination c) with
       | None => Err (ErrNew "invalid destination; must be a valid IP address")
       | Some _ => Ok tt
       end.

Definition upsertPayload (cfg : PortForwardingConfig) : apiRequest :=
  {| Service := "Firewall";
     Method := "setPortForwarding";
     Parameters :=
       <["id" := AString ("webui_" ++ cName cfg)]>
       (<["description" := AString (cName cfg)]>
       (<["protocol" := AString (intString (cProtocol cfg))]>
       (<["internalPort" := AInt (cInternalPort cfg)]>
       (<["externalPort" := AString (formatPortRange (cExternalPort cfg) (cPortRange cfg))]>
       (<["destinationIPAddress" := AString (cDestination cfg)]>
       (<["sourcePrefix" := AString EmptyString]>
       (<["persistent" := ABool true]>
       (<["enable" := ABool (cEnabled cfg)]>
       (<["sourceInterface" := AString "data"]>
       (<["origin" := AString "webui"]> ∅)))))))))) |}.

Definition UpsertPortForwarding (c : Client) (cfg : PortForwardingConfig) : M unit :=
  match validate cfg with
  | Err e => ret (Err (ErrWrap "validate configuration" e))
  | Ok _ =>
      bind (wrapM "do request" (doReq c (upsertPayload cfg))) (fun _ =>
      ret (Ok tt))
  end.

Definition deletePayload (name : string) : apiRequest :=
  {| Service := "Firewall";
     Method := "deletePortForwarding";
     Parameters :=
       <["id" := AString ("webui_" ++ name)]>
       (<["origin" := AString "webui"]> ∅) |}.


(** ** The Terraform resource *)

(** [basetypes.StringValue], [Int64Value], [BoolValue]: null, unknown or a
    known value. *)
Inductive tfvalue (A : Type) : Type :=
| TFNull
| TFUnknown
| TFKnown (a : A).

Arguments TFNull {A}.
Arguments TFUnknown {A}.
Arguments TFKnown {A} a.

(** [ValueString], [ValueInt64], [ValueBool]: the zero value unless known. *)
Definition valueOr {A} (zero : A) (v : tfvalue A) : A :=
  match v with
  | TFKnown a => a
  | _ => zero
  end.

Record portForwardingModel : Type := {
  mName : tfvalue string;
  mProtocol : tfvalue string;
  mExternalPort : tfvalue Z;
  mInternalPort : tfvalue Z;
  mPortRange : tfvalue Z;
  mDestination : tfvalue string;
  mEnabled : tfvalue bool
}.

Record diagnostic : Type := {
  summary : string;
  subject : string;
  cause : error
}.

Record resourceResponse : Type := {
  Diagnostics : list diagnostic;
  State : option portForwardingModel
}.

(** The configuration [Create] and [Update] build from the plan; [int] and
    [int64] coincide. *)
Definition configOfModel (plan : portForwardingModel) : PortForwardingConfig :=
  {| cName := valueOr EmptyString (mName plan);
     cExternalPort := valueOr 0 (mExternalPort plan);
     cInternalPort := valueOr 0 (mInternalPort plan);
     cPortRange := valueOr 0 (mPortRange plan);
     cProtocol := valueOr EmptyString (mProtocol plan);
     cDestination := valueOr EmptyString (mDestination plan);
     cEnabled := valueOr false (mEnabled plan) |}.

(** The fields of the configuration copied back into the plan. *)
Definition modelOfConfig (cfg : PortForwardingConfig) : portForwardingModel :=
  {| mName := TFKnown (cName cfg);
     mProtocol := TFKnown (cProtocol cfg);
     mDestination := TFKnown (cDestination cfg);
     mExternalPort := TFKnown (cExternalPort cfg);
     mInternalPort := TFKnown (cInternalPort cfg);
     mPortRange := TFKnown (cPortRange cfg);
     mEnabled := TFKnown (cEnabled cfg) |}.

(** [portForwardingResource.Create] on a plan that was read without error;
    [resp.State.Set] stores the model it is given. *)
Definition Create (client : Client) (plan : portForwardingModel)
  : World -> resourceResponse * World :=
  fun w =>
    let cfg := configOfModel plan in
    match UpsertPortForwarding client cfg w with
    | (Err err, w') =>
        ({| Diagnostics := [{| summary := "Error creating port forward";
                               subject := cName cfg; cause := err |}];
            State := None |}, w')
    | (Ok _, w') =>
        ({| Diagnostics := []; State := Some (modelOfConfig cfg) |}, w')
    end.

(** [portForwardingResource.Update]: the same steps under another message. *)
Definition Update (client : Client) (plan : portForwardingModel)
  : World -> resourceResponse * World :=
  fun w =>
    let cfg := configOfModel plan in
    match UpsertPortForwarding client cfg w with
    | (Err err, w') =>
        ({| Diagnostics := [{| summary := "Error updating port forward";
                               subject := cName cfg; cause := err |}];
            State := None |}, w')
    | (Ok _, w') =>
        ({| Diagnostics := []; State := Some (modelOfConfig cfg) |}, w')
    end.

End Livebox.

Arguments TFNull {A}.
Arguments TFUnknown {A}.
Arguments TFKnown {A} a.

(** ** Cookie headers as lists of parts

    A [Cookie] value is a list of cookies and a [Set-Cookie] value a cookie
    followed by its attributes, both separated by semicolons; the name of a
    part is what stands before its first equals sign. *)





Fixpoint freeOf (sep : ascii) (s : string) : bool :=
  match s with
  | EmptyString => true
  | String c t => negb (Ascii.eqb c sep) && freeOf sep t
  end.

(** ** A test bench

    A small instance of the library for running the client: the world is the
    list of requests that reached the router, which knows one password and one
    forwarding rule; addresses are dotted quads. *)

Module Bench.

Definition field (name : string) (value : string) : string :=
  quoted name ++ ":" ++ value.

Definition loginBody : string :=
  "{" ++ field "status" "0" ++ "," ++ field "data" ("{" ++ field "contextID" (quoted "c0ffee") ++ "}") ++ "}".

Definition deniedBody : string :=
  "{" ++ field "status" "null" ++ "," ++ field "errors" "[{" ++ field "error" "13" ++ "}]}".

Definition doneBody : string := "{" ++ field "status" "true" ++ "}".

Definition rulesBody : string := "{" ++ field "status" "{...}" ++ "}".

(** An answer that carries an errors member holding the empty list. *)
Definition quietBody : string :=
  "{" ++ field "status" "true" ++ "," ++ field "errors" "[]" ++ "}".

Definition htmlBody : string := "<html>".

Definition marshal (r : apiRequest) : Result string :=
  Ok (Service r ++ "." ++ Method r ++
      match Parameters r !! "password" with
      | Some (AString p) => "." ++ p
      | _ => EmptyString
      end).

Definition router (req : Request) : Response :=
  let body :=
    if String.eqb (reqBody req) "sah.Device.Information.createContext.secret" then loginBody
    else if String.eqb (headerGet (reqHeader req) "Authorization") "X-Sah c0ffee" then
      if String.eqb (reqBody req) "Firewall.getPortForwarding" then rulesBody
      else if String.eqb (reqBody req) "Firewall.setPortForwarding" then doneBody
      else if String.eqb (reqBody req) "Firewall.deletePortForwarding" then quietBody
      else htmlBody
    else deniedBody in
  {| StatusCode := 200; respHeader := ∅; respBody := body |}.

Definition envelope (body : string) : Result apiResponse :=
  if String.eqb body deniedBody then
    Ok {| Status := "null"; Errors := "[{" ++ field "error" "13" ++ "}]" |}
  else if String.eqb body doneBody then Ok {| Status := "true"; Errors := EmptyString |}
  else if String.eqb body rulesBody then Ok {| Status := "{...}"; Errors := EmptyString |}
  else if String.eqb body loginBody then Ok {| Status := "0"; Errors := EmptyString |}
  else if String.eqb body quietBody then Ok {| Status := "true"; Errors := "[]" |}
  else Err (ErrLib "invalid character").

Definition loginData (body : string) : Result loginResponse :=
  if String.eqb body loginBody then Ok {| ContextID := "c0ffee" |}
  else if String.eqb body deniedBody then Ok {| ContextID := EmptyString |}
  else if String.eqb body doneBody then Ok {| ContextID := EmptyString |}
  else if String.eqb body rulesBody then Ok {| ContextID := EmptyString |}
  else Err (ErrLib "invalid character").

Definition wireguard : getPortForwardingResp :=
  {| rID := "webui_wireguard"; rOrigin := "webui"; rDescription := "wireguard";
     rStatus := "Enabled"; rSourceInterface := "data"; rProtocol := "17";
     rExternalPort := "51820"; rInternalPort := "51820";
     rSourcePrefix := EmptyString; rDestinationIPAddress := "192.168.10.200";
     rDestinationMACAddress := EmptyString; rLeaseDuration := 0;
     rHairpinNAT := true; rSymmetricSNAT := false; rUPnPV1Compat := false;
     rEnable := true |}.

Definition rules (data : string) : Result (gmap string getPortForwardingResp) :=
  if String.eqb data "{...}" then Ok (<["webui_wireguard" := wireguard]> ∅)
  else Err (ErrLib "unexpected end of JSON input").

(** One field of a dotted quad: one to three digits, no leading zero, at most
    255. *)
Definition octet (s : string) : option Z :=
  match Atoi s with
  | Ok v =>
      if (String.length s <=? 3)%nat && (0 <=? v) && (v <=? 255)
         && String.eqb (Itoa v) s
      then Some v else None
  | Err _ => None
  end.

Definition dottedQuad (s : string) : option (list Z) :=
  match SplitN s "." 5 with
  | [a; b; c; d] =>
      match octet a, octet b, octet c, octet d with
      | Some a, Some b, Some c, Some d => Some [0;0;0;0;0;0;0;0;0;0;255;255;a;b;c;d]
      | _, _, _, _ => None
      end
  | _ => None
  end.

#[export] Instance bench : Library := {|
  World := list Request;
  jsonMarshal := marshal;
  (* a URL that starts with a colon has no scheme before it *)
  parseURL := fun url =>
    if HasPrefix url ":" then Err (ErrLib "missing protocol scheme") else Ok tt;
  transportRoundTrip := fun req w => (Ok (router req), (w ++ [req])%list);
  clientDo := fun rt req w => rt req w;
  decodeEnvelope := envelope;
  decodeLogin := loginData;
  unmarshalPortForwardings := rules;
  mapRange := map_to_list;
  mapRange_perm := fun m => Permutation_refl (map_to_list m);
  ParseIP := dottedQuad
|}.

(** A client before login and one holding the session of the bench. *)
Definition anonymous : Client := {|
  host := "http://livebox";
  token := EmptyString;
  httpClient := {| Transport := cookieNamePatcher_RoundTrip transportRoundTrip |}
|}.

Definition session : Client := withToken anonymous "c0ffee".

Definition wireguardConfig : PortForwardingConfig :=
  {| cName := "wireguard"; cExternalPort := 51820; cInternalPort := 51820;
     cPortRange := 0; cProtocol := ProtocolUDP;
     cDestination := "192.168.10.200"; cEnabled := true |}.

(** The same rule as a plan, its optional extent left unset. *)
Definition wireguardPlan : portForwardingModel :=
  {| mName := TFKnown "wireguard"; mProtocol := TFKnown "udp";
     mExternalPort := TFKnown 51820; mInternalPort := TFKnown 51820;
     mPortRange := TFNull; mDestination := TFKnown "192.168.10.200";
     mEnabled := TFKnown true |}.

Definition icmpConfig : PortForwardingConfig :=
  {| cName := "ping"; cExternalPort := 8; cInternalPort := 8;
     cPortRange := 0; cProtocol := "icmp";
     cDestination := "192.168.10.200"; cEnabled := true |}.

Definition edgeConfig : PortForwardingConfig :=
  {| cName := "edge"; cExternalPort := 65535; cInternalPort := 8080;
     cPortRange := 2; cProtocol := ProtocolTCP;
     cDestination := "192.168.10.200"; cEnabled := false |}.



End Bench.

(** ** Vocabulary of the statements *)

Definition ConcreteProtocol (p : Protocol) : Prop :=
  p = ProtocolTCP \/ p = ProtocolUDP \/ p = ProtocolTCPUDP.

(** The invariants of a configuration, each on its own field. *)
Definition ValidConfig `{Library} (cfg : PortForwardingConfig) : Prop :=
  cName cfg <> EmptyString
  /\ 1 <= cExternalPort cfg <= 65535
  /\ 1 <= cInternalPort cfg <= 65535
  /\ 0 <= cPortRange cfg <= 65535
  /\ ConcreteProtocol (cProtocol cfg)
  /\ ParseIP (cDestination cfg) <> None.

(** The ways of breaking them. *)
Definition InvalidConfig `{Library} (cfg : PortForwardingConfig) : Prop :=
  cName cfg = EmptyString
  \/ (cExternalPort cfg < 1 \/ 65535 < cExternalPort cfg)
  \/ (cInternalPort cfg < 1 \/ 65535 < cInternalPort cfg)
  \/ (cPortRange cfg < 0 \/ 65535 < cPortRange cfg)
  \/ ~ ConcreteProtocol (cProtocol cfg)
  \/ ParseIP (cDestination cfg) = None.

(** What [UpsertPortForwarding] does once validation has passed: one call of
    the request executor with the payload of the configuration. *)
Definition upsertCall `{Library} (c : Client) (cfg : PortForwardingConfig) : M unit :=
  bind (wrapM "do request" (doReq c (upsertPayload cfg))) (fun _ => ret (Ok tt)).

(** The client [NewClient] starts from, before login. *)
Definition freshClient `{Library} (host_ : string) : Client :=
  {| host := host_;
     token := EmptyString;
     httpClient := {| Transport := cookieNamePatcher_RoundTrip transportRoundTrip |} |}.


(** The first value of the [Cookie] header as the request leaves. *)
Definition outgoingCookie (req : Request) : string :=
  headerGet (reqHeader (patchRequest req)) "Cookie".


(** A list of header values with its first value rewritten. *)
Definition rewriteFirst (f : string -> string) (values : list string) : list string :=
  match values with
  | [] => []
  | v :: rest => f v :: rest
  end.

(** ** The Terraform resource, continued, and the provider *)

Section Adapter.

Context `{Library}.



(** The configuration of the provider. *)
Record liveboxProviderModel : Type := {
  pHost : tfvalue string;
  pPassword : tfvalue string
}.

Inductive providerDiagnostic : Type :=
| AttributeError (attribute summary : string)  (* AddAttributeError(path.Root(attribute), summary, ...) *)
| ClientError (summary : string) (cause : error).  (* AddError(summary, ... + err.Error()) *)

Definition IsUnknown {A} (v : tfvalue A) : bool :=
  match v with TFUnknown => true | _ => false end.

Definition IsNull {A} (v : tfvalue A) : bool :=
  match v with TFNull => true | _ => false end.

(** [os.Getenv]: the empty text for a variable that is not set. *)
Definition Getenv (env : gmap string string) (key : string) : string :=
  default EmptyString (env !! key).

(** The host and password [Configure] settles on. *)
Definition resolve (env : gmap string string) (key : string) (v : tfvalue string) : string :=
  if negb (IsNull v) then valueOr EmptyString v else Getenv env key.

(** [Livebox.Configure] on a configuration that was read without error: the
    diagnostics it adds and the client it hands to the resources. *)
Definition Configure (env : gmap string string) (config : liveboxProviderModel)
  : World -> (list providerDiagnostic * option Client) * World :=
  fun w =>
    let unknownHost :=
      if IsUnknown (pHost config)
      then [AttributeError "host" "Unknown Livebox Host"] else [] in
    let unknownPassword :=
      if IsUnknown (pPassword config)
      then [AttributeError "password" "Unknown Livebox Password"] else [] in
    let host_ := resolve env "LIVEBOX_HOST" (pHost config) in
    let password := resolve env "LIVEBOX_PASSWORD" (pPassword config) in
    let missingHost :=
      if String.eqb host_ EmptyString
      then [AttributeError "host" "Missing Livebox Host"] else [] in
    let missingPassword :=
      if String.eqb password EmptyString
      then [AttributeError "password" "Missing Livebox Password"] else [] in
    match (unknownHost ++ unknownPassword ++ missingHost ++ missingPassword)%list with
    | (_ :: _) as diags => ((diags, None), w)
    | [] =>
        match NewClient host_ password w with
        | (Err err, w') => (([ClientError "Unable to Create Livebox Client" err], None), w')
        | (Ok client, w') => (([], Some client), w')
        end
    end.

End Adapter.

(** ** More vocabulary *)

(** Replacing [String a r] by [String b r], position by position: a character
    changes only where an instance starts. *)
Fixpoint renameAt (a b : ascii) (r : string) (s : string) : string :=
  match s with
  | EmptyString => EmptyString
  | String c t =>
      String (if HasPrefix s (String a r) then b else c) (renameAt a b r t)
  end.


(** The request both entry points hand to the HTTP client, given the
    marshalled body. *)
Definition clientRequest `{Library} (c : Client) (authorization body : string) : Request :=
  {| reqMethod := "POST";
     reqURL := host c ++ "/ws";
     reqHeader := <["Content-Type" := ["application/x-sah-ws-4-call+json"]]>
                  (<["Authorization" := [authorization]]> ∅);
     reqBody := body |}.

(** What [Configure] hands over once it has called [NewClient]. *)
Definition handOver `{Library} (outcome : Result Client * World)
  : (list providerDiagnostic * option Client) * World :=
  match outcome with
  | (Err err, w') => (([ClientError "Unable to Create Livebox Client" err], None), w')
  | (Ok client, w') => (([], Some client), w')
  end.

(** Concrete inputs for the statements below. *)
Module Scenario.

Definition environment : gmap string string :=
  <["LIVEBOX_HOST" := "http://livebox"]> (<["LIVEBOX_PASSWORD" := "secret"]> ∅).

Definition explicit : liveboxProviderModel :=
  {| pHost := TFKnown "http://192.168.1.1"; pPassword := TFKnown "secret" |}.

Definition unset : liveboxProviderModel :=
  {| pHost := TFNull; pPassword := TFNull |}.

(** An environment whose password is not the router's, and a configuration
    that sets the password and leaves the host to the environment. *)
Definition stale : gmap string string :=
  <["LIVEBOX_HOST" := "http://livebox"]> (<["LIVEBOX_PASSWORD" := "wrong"]> ∅).

Definition passwordOnly : liveboxProviderModel :=
  {| pHost := TFNull; pPassword := TFKnown "secret" |}.

Definition pending : liveboxProviderModel :=
  {| pHost := TFUnknown; pPassword := TFKnown "secret" |}.




End Scenario.

(** * Properties *)

(** ** Integers *)

Lemma inRangeb_spec z : GoInt.inRangeb z = true <-> GoInt.inRange z.
Proof.
  unfold GoInt.inRangeb, GoInt.inRange.
  rewrite andb_true_iff, !Z.leb_le. tauto.
Qed.

Lemma wrap_inRange z : GoInt.inRange (GoInt.wrap z).
Proof.
  unfold GoInt.inRange, GoInt.wrap, GoInt.minInt, GoInt.maxInt.
  pose proof (Z.mod_pos_bound (z + 2 ^ 63) (2 ^ 64) ltac:(lia)). lia.
Qed.

Lemma wrap_id z : GoInt.inRange z -> GoInt.wrap z = z.
Proof.
  unfold GoInt.inRange, GoInt.wrap, GoInt.minInt, GoInt.maxInt. intros Hz.
  rewrite Z.mod_small by lia. lia.
Qed.

Lemma wrap_add_sub a b : GoInt.wrap (GoInt.wrap (a + b) - a) = GoInt.wrap b.
Proof.
  unfold GoInt.wrap.
  replace ((a + b + 2 ^ 63) mod 2 ^ 64 - 2 ^ 63 - a + 2 ^ 63)
    with ((a + b + 2 ^ 63) mod 2 ^ 64 - a) by lia.
  rewrite Zminus_mod_idemp_l. do 2 f_equal. lia.
Qed.

Lemma sub_add a b : GoInt.inRange b -> GoInt.sub (GoInt.add a b) a = b.
Proof.
  intros Hb. unfold GoInt.sub, GoInt.add.
  rewrite wrap_add_sub. now apply wrap_id.
Qed.

Lemma port_inRange p : 0 <= p <= 65535 -> GoInt.inRange p.
Proof. unfold GoInt.inRange, GoInt.minInt, GoInt.maxInt. lia. Qed.

(** ** Decimal text *)

Lemma digits_freeOf c d :
  uint_of_char c (Some Decimal.Nil) = None ->
  freeOf c (NilEmpty.string_of_uint d) = true.
Proof.
  intros Hc. induction d; cbn [NilEmpty.string_of_uint freeOf]; auto;
    rewrite IHd, andb_true_r;
    match goal with
    | |- negb (Ascii.eqb ?k c) = true =>
        destruct (Ascii.eqb_spec k c) as [<-|]; [discriminate Hc | reflexivity]
    end.
Qed.

Lemma Itoa_nonneg p :
  0 <= p -> exists d, d <> Decimal.Nil /\ Itoa p = NilEmpty.string_of_uint d
                      /\ Z.of_uint d = p.
Proof.
  intros Hp. destruct p as [|q|q]; [| |lia].
  - exists (Decimal.D0 Decimal.Nil). repeat split; discriminate.
  - exists (Pos.to_uint q). pose proof (DecimalPos.Unsigned.to_uint_nonnil q) as Hn.
    repeat split; auto.
    + unfold Itoa. cbn [Z.to_int NilZero.string_of_int].
      unfold NilZero.string_of_uint. destruct (Pos.to_uint q); congruence.
    + exact (DecimalZ.of_to (Z.pos q)).
Qed.

Lemma Itoa_neg q :
  Itoa (Z.neg q) = String "-" (NilEmpty.string_of_uint (Pos.to_uint q))
  /\ Z.of_uint (Pos.to_uint q) = Z.pos q.
Proof.
  pose proof (DecimalPos.Unsigned.to_uint_nonnil q) as Hn. split.
  - unfold Itoa. cbn [Z.to_int NilZero.string_of_int].
    unfold NilZero.string_of_uint. destruct (Pos.to_uint q); congruence.
  - exact (DecimalZ.of_to (Z.pos q)).
Qed.

Lemma Atoi_digits d :
  d <> Decimal.Nil -> GoInt.inRange (Z.of_uint d) ->
  Atoi (NilEmpty.string_of_uint d) = Ok (Z.of_uint d).
Proof.
  intros Hd Hr. apply inRangeb_spec in Hr.
  pose proof (NilEmpty.usu d) as Hu.
  destruct d; [congruence| ..];
    cbn [NilEmpty.string_of_uint] in *; unfold Atoi;
    cbn [Ascii.eqb Bool.eqb]; rewrite Hu; cbv zeta; now rewrite Hr.
Qed.

Lemma Atoi_minus_digits d :
  d <> Decimal.Nil -> GoInt.inRange (- Z.of_uint d) ->
  Atoi (String "-" (NilEmpty.string_of_uint d)) = Ok (- Z.of_uint d).
Proof.
  intros Hd Hr. apply inRangeb_spec in Hr.
  pose proof (NilEmpty.usu d) as Hu.
  unfold Atoi. cbn [Ascii.eqb Bool.eqb].
  destruct d; [congruence| ..];
    cbn [NilEmpty.string_of_uint] in *; rewrite Hu; cbv zeta; now rewrite Hr.
Qed.

(** [Atoi] reads back what [Itoa] wrote. *)
Lemma Atoi_Itoa n : GoInt.inRange n -> Atoi (Itoa n) = Ok n.
Proof.
  intros Hn. destruct (Z.neg_nonneg_cases n) as [Hneg|Hpos].
  - destruct n as [|q|q]; try lia.
    destruct (Itoa_neg q) as [-> Hq].
    rewrite Atoi_minus_digits; rewrite ?Hq; auto.
    apply DecimalPos.Unsigned.to_uint_nonnil.
  - destruct (Itoa_nonneg n Hpos) as (d & Hd & -> & Hv).
    rewrite Atoi_digits; rewrite ?Hv; auto.
Qed.

Lemma Itoa_freeOf_dash p : 0 <= p -> freeOf "-" (Itoa p) = true.
Proof.
  intros Hp. destruct (Itoa_nonneg p Hp) as (d & _ & -> & _).
  now apply digits_freeOf.
Qed.

(** ** Cutting and splitting *)

Lemma HasPrefix_char c s x :
  HasPrefix (String x s) (String c EmptyString) = Ascii.eqb x c.
Proof.
  unfold HasPrefix. cbn [String.prefix].
  destruct (ascii_dec c x) as [->|Hne].
  - rewrite Ascii.eqb_refl. now destruct s.
  - symmetry. apply Ascii.eqb_neq. congruence.
Qed.

Lemma Cut_none c s :
  freeOf c s = true -> Cut s (String c EmptyString) = None.
Proof.
  induction s as [|x t IH]; intros Hf; [reflexivity|].
  cbn [freeOf] in Hf. apply andb_true_iff in Hf as [Hx Ht].
  cbn [Cut]. rewrite HasPrefix_char.
  apply negb_true_iff in Hx. rewrite Hx, IH; auto.
Qed.

Lemma append_empty s : EmptyString ++ s = s.
Proof. reflexivity. Qed.

Lemma append_String x t s : String x t ++ s = String x (t ++ s).
Proof. reflexivity. Qed.

Lemma Cut_first c a b :
  freeOf c a = true ->
  Cut (a ++ String c b) (String c EmptyString) = Some (a, b).
Proof.
  induction a as [|x t IH]; intros Hf.
  - rewrite append_empty. cbn [Cut].
    rewrite HasPrefix_char, Ascii.eqb_refl. reflexivity.
  - cbn [freeOf] in Hf. apply andb_true_iff in Hf as [Hx Ht].
    rewrite append_String. cbn [Cut]. rewrite HasPrefix_char.
    apply negb_true_iff in Hx. rewrite Hx, IH; auto.
Qed.

(** ** The port-range codec *)

Lemma parsePortRange_plain p :
  0 <= p -> GoInt.inRange p -> parsePortRange (Itoa p) = Ok (p, 0).
Proof.
  intros Hp Hr. unfold parsePortRange. cbn [SplitN].
  rewrite Cut_none by now apply Itoa_freeOf_dash.
  now rewrite Atoi_Itoa.
Qed.

Lemma parsePortRange_dashed p q :
  0 <= p -> GoInt.inRange p -> GoInt.inRange q ->
  parsePortRange (Itoa p ++ "-" ++ Itoa q) = Ok (p, GoInt.sub q p).
Proof.
  intros Hp Hr Hq. unfold parsePortRange. cbn [SplitN].
  change ("-" ++ Itoa q) with (String "-" (Itoa q)).
  rewrite Cut_first by now apply Itoa_freeOf_dash.
  now rewrite !Atoi_Itoa.
Qed.

Lemma formatPortRange_dashed p r :
  r <> 0 -> r <> 1 ->
  formatPortRange p r = Itoa p ++ "-" ++ Itoa (GoInt.add p r).
Proof.
  intros H0 H1. unfold formatPortRange.
  apply Z.eqb_neq in H0, H1. now rewrite H0, H1.
Qed.

(** C5: [formatPortRange p r] is the decimal text of [p] when [r] is 0 or 1,
    both standing for no range, and otherwise the text of [p], a dash and the
    text of [p + r] as Go computes the sum, which is the mathematical sum
    whenever that fits an [int]. *)
Theorem formatPortRange_spec (p r : Z) :
  (r = 0 \/ r = 1 -> formatPortRange p r = Itoa p)
  /\ (r <> 0 -> r <> 1 ->
      formatPortRange p r = Itoa p ++ "-" ++ Itoa (GoInt.add p r))
  /\ (GoInt.inRange (p + r) -> GoInt.add p r = p + r).
Proof.
  split; [| split].
  - intros [-> | ->]; reflexivity.
  - apply formatPortRange_dashed.
  - apply wrap_id.
Qed.

Lemma formatPortRange_spec_witness :
  formatPortRange 51820 0 = "51820" /\ formatPortRange 51820 1 = "51820"
  /\ formatPortRange 10000 5 = "10000-10005".
Proof.
  destruct (formatPortRange_spec 51820 0) as (H0 & _ & _).
  destruct (formatPortRange_spec 51820 1) as (H1 & _ & _).
  destruct (formatPortRange_spec 10000 5) as (_ & H5 & Hs).
  split; [|split].
  - rewrite H0 by (left; reflexivity). reflexivity.
  - rewrite H1 by (right; reflexivity). reflexivity.
  - rewrite H5 by discriminate. rewrite Hs by (vm_compute; split; discriminate).
    reflexivity.
Defined.

(** C4: for a port [p] between 1 and 65535 the decimal text of [p] parses to
    a pair that formats back to that text, and for an extent [r] of at least 2
    parsing the text [formatPortRange p r] gives back the pair [(p, r)]. *)
Theorem portRange_roundtrip (p : Z) :
  1 <= p <= 65535 ->
  (exists port extent,
      parsePortRange (Itoa p) = Ok (port, extent)
      /\ formatPortRange port extent = Itoa p)
  /\ (forall r, 2 <= r <= GoInt.maxInt ->
        parsePortRange (formatPortRange p r) = Ok (p, r)).
Proof.
  intros Hp. assert (Hr : GoInt.inRange p) by (apply port_inRange; lia). split.
  - exists p, 0. split; [apply parsePortRange_plain; [lia | exact Hr] | reflexivity].
  - intros r Hr2.
    assert (Hrr : GoInt.inRange r)
      by (unfold GoInt.inRange, GoInt.minInt, GoInt.maxInt in *; lia).
    rewrite formatPortRange_dashed by lia.
    rewrite parsePortRange_dashed; [| lia | exact Hr | apply wrap_inRange].
    now rewrite sub_add.
Qed.

Lemma portRange_roundtrip_witness :
  1 <= 51820 <= 65535
  /\ parsePortRange (Itoa 51820) = Ok (51820, 0)
  /\ formatPortRange 51820 0 = Itoa 51820
  /\ parsePortRange (formatPortRange 51820 5) = Ok (51820, 5).
Proof.
  assert (H : 1 <= 51820 <= 65535) by lia.
  destruct (portRange_roundtrip 51820 H) as [_ Hrange].
  split; [exact H | split; [reflexivity | split; [reflexivity |]]].
  apply Hrange. vm_compute. split; discriminate.
Defined.

(** ** The protocol codec *)

(** C6: the three concrete protocols are written "6", "17" and "6,17" and
    read back as themselves; every other wire text reads as the unknown
    protocol, whose own encoding is the empty text. *)
Theorem protocol_codec :
  (intString ProtocolTCP = "6" /\ parseProtocol (intString ProtocolTCP) = ProtocolTCP)
  /\ (intString ProtocolUDP = "17" /\ parseProtocol (intString ProtocolUDP) = ProtocolUDP)
  /\ (intString ProtocolTCPUDP = "6,17"
      /\ parseProtocol (intString ProtocolTCPUDP) = ProtocolTCPUDP)
  /\ (forall wire : string,
        wire <> "6" -> wire <> "17" -> wire <> "6,17" ->
        parseProtocol wire = ProtocolUnknown)
  /\ intString ProtocolUnknown = EmptyString.
Proof.
  repeat split.
  intros wire H6 H17 H617. unfold parseProtocol.
  apply String.eqb_neq in H6, H17, H617. now rewrite H6, H17, H617.
Qed.

Lemma protocol_codec_witness :
  parseProtocol "1" = ProtocolUnknown
  /\ parseProtocol EmptyString = ProtocolUnknown
  /\ parseProtocol "6, 17" = ProtocolUnknown.
Proof.
  destruct protocol_codec as (_ & _ & _ & Hother & _).
  repeat split; apply Hother; discriminate.
Defined.

(** ** The request executor and the session manager *)

Section Executor.

Context `{Library}.

Lemma bind_ret_ok {A B} (a : A) (k : A -> M B) w : bind (ret (Ok a)) k w = k a w.
Proof. reflexivity. Qed.

Lemma bind_ok {A B} (m : M A) (k : A -> M B) w a w' :
  m w = (Ok a, w') -> bind m k w = k a w'.
Proof. intros Hm. unfold bind. now rewrite Hm. Qed.

Lemma rawField_snoc name members member :
  rawField name (members ++ [member])
  = if String.eqb (fst member) name then snd member else rawField name members.
Proof. unfold rawField. now rewrite fold_left_app. Qed.

Lemma rawField_member name members :
  ((forall raw, ~ In (name, raw) members) /\ rawField name members = EmptyString)
  \/ In (name, rawField name members) members.
Proof.
  induction members as [| [key value] members IH] using rev_ind.
  - left. split; [intros raw [] | reflexivity].
  - rewrite rawField_snoc. cbn [fst snd].
    destruct (String.eqb_spec key name) as [-> | Hne].
    + right. apply in_or_app. right. now left.
    + destruct IH as [[Hnone Hraw] | Hin].
      * left. split; [| exact Hraw]. intros raw Hin.
        apply in_app_or in Hin as [Hin | [[= Hk _] | []]];
          [exact (Hnone raw Hin) | congruence].
      * right. apply in_or_app. now left.
Qed.

(** C1, as the code has it: once the envelope of the response is decoded,
    an errors payload of at least one byte makes [doReq] fail with the API
    error carrying that payload, whatever the status code and headers of the
    response, and an errors payload of no byte makes it return the status
    payload.  Every errors member present in the decoded object gives at least
    one byte, the empty list included, so the call succeeds only when the
    object has no errors member. *)
Theorem doReq_envelope (c : Client) (r : apiRequest) (w w' : World)
    (req : Request) (code : Z) (hdr : gmap string (list string))
    (body : string) (env : apiResponse) :
  buildRequest c ("X-Sah " ++ token c) r = Ok req ->
  clientDo (Transport (httpClient c)) req w
    = (Ok {| StatusCode := code; respHeader := hdr; respBody := body |}, w') ->
  decodeEnvelope body = Ok env ->
  (Errors env <> EmptyString -> doReq c r w = (Err (ErrAPI (Errors env)), w'))
  /\ (Errors env = EmptyString -> doReq c r w = (Ok (Status env), w'))
  /\ (Errors env = "[]" -> doReq c r w = (Err (ErrAPI "[]"), w'))
  /\ (forall members,
        env = envelopeOf members ->
        Forall (fun member => snd member <> EmptyString) members ->
        (forall raw, In ("errors", raw) members ->
           In ("errors", Errors env) members
           /\ doReq c r w = (Err (ErrAPI (Errors env)), w'))
        /\ ((forall raw, ~ In ("errors", raw) members) ->
            doReq c r w = (Ok (Status env), w'))).
Proof.
  intros Hreq Hdo Hdec.
  assert (Hrun : doReq c r w
                 = (if (0 <? String.length (Errors env))%nat
                    then Err (ErrAPI (Errors env)) else Ok (Status env), w')).
  { unfold doReq. rewrite Hreq, bind_ret_ok, (bind_ok _ _ _ _ _ Hdo).
    cbn [respBody]. rewrite Hdec, bind_ret_ok.
    now destruct (0 <? String.length (Errors env))%nat. }
  assert (Hfail : Errors env <> EmptyString ->
                  doReq c r w = (Err (ErrAPI (Errors env)), w')).
  { intros He. rewrite Hrun. destruct (Errors env); [congruence | reflexivity]. }
  assert (Hpass : Errors env = EmptyString -> doReq c r w = (Ok (Status env), w')).
  { intros He. rewrite Hrun, He. reflexivity. }
  split; [exact Hfail | split; [exact Hpass | split]].
  - intros He. rewrite <- He. apply Hfail. rewrite He. discriminate.
  - intros members -> Hvalues. cbn [Errors Status envelopeOf] in *.
    destruct (rawField_member "errors" members) as [[Hnone Hraw] | Hin].
    + split; [intros raw Hin; destruct (Hnone raw Hin) | intros _; now apply Hpass].
    + split.
      * intros raw _. split; [exact Hin |]. apply Hfail.
        exact (proj1 (List.Forall_forall _ _) Hvalues _ Hin).
      * intros Hnone. destruct (Hnone _ Hin).
Qed.

(** C3, as the code has it: [login] decodes only the context identifier, so a
    login response that is well-formed and whose envelope carries an API
    error is taken as a success, and [NewClient] returns a client holding
    whatever identifier was decoded. *)
Theorem NewClient_accepts_api_error (host_ password : string) (w w' : World)
    (resp : Response) (lr : loginResponse) (env : apiResponse) :
  doAuthReq (freshClient host_) (loginPayload password) w = (Ok resp, w') ->
  decodeLogin (respBody resp) = Ok lr ->
  decodeEnvelope (respBody resp) = Ok env ->
  Errors env <> EmptyString ->
  NewClient host_ password w
  = (Ok (withToken (freshClient host_) (ContextID lr)), w').
Proof.
  intros Hdo Hlr _ _. unfold NewClient, login.
  change {| host := host_; token := EmptyString;
            httpClient := {| Transport := cookieNamePatcher_RoundTrip transportRoundTrip |} |}
    with (freshClient host_).
  rewrite (bind_ok _ _ _ _ _ Hdo), Hlr. reflexivity.
Qed.

End Executor.

(** C1, as the claim states it, fails: the answer to a delete carries an
    errors member holding the empty list, and the call fails with the API
    error of that payload where the claim has it return the status. *)
Lemma doReq_rejects_empty_errors_list :
  Bench.envelope Bench.quietBody = Ok (envelopeOf [("status", "true"); ("errors", "[]")])
  /\ exists w',
       doReq Bench.session (deletePayload "wireguard") [] = (Err (ErrAPI "[]"), w')
       /\ doReq Bench.session (deletePayload "wireguard") [] <> (Ok "true", w').
Proof.
  split; [reflexivity |]. eexists. split; [reflexivity | discriminate].
Qed.

Lemma doReq_envelope_witness :
  (exists w', doReq Bench.anonymous listPayload []
              = (Err (ErrAPI ("[{" ++ Bench.field "error" "13" ++ "}]")), w'))
  /\ (exists w', doReq Bench.session (upsertPayload Bench.wireguardConfig) []
                 = (Ok "true", w'))
  /\ (exists w', doReq Bench.session (deletePayload "wireguard") []
                 = (Err (ErrAPI "[]"), w')).
Proof.
  split; [| split].
  - edestruct (doReq_envelope (H := Bench.bench) Bench.anonymous listPayload [])
      as (_ & _ & _ & Hmembers); [reflexivity | reflexivity | reflexivity |].
    destruct (Hmembers [("status", "null");
                        ("errors", "[{" ++ Bench.field "error" "13" ++ "}]")]
                eq_refl) as [Herr _].
    { repeat constructor; discriminate. }
    eexists. apply (Herr ("[{" ++ Bench.field "error" "13" ++ "}]")).
    right. now left.
  - edestruct (doReq_envelope (H := Bench.bench) Bench.session
                 (upsertPayload Bench.wireguardConfig) [])
      as (_ & _ & _ & Hmembers); [reflexivity | reflexivity | reflexivity |].
    destruct (Hmembers [("status", "true")] eq_refl) as [_ Hok].
    { repeat constructor; discriminate. }
    eexists. apply Hok. intros raw [[=] | []].
  - edestruct (doReq_envelope (H := Bench.bench) Bench.session
                 (deletePayload "wireguard") [])
      as (_ & _ & Hempty & _); [reflexivity | reflexivity | reflexivity |].
    eexists. apply Hempty. reflexivity.
Defined.

Lemma NewClient_accepts_api_error_witness :
  exists w',
    NewClient (H := Bench.bench) "http://livebox" "wrong" []
    = (Ok (withToken (freshClient "http://livebox") EmptyString), w')
    /\ isOk (Bench.envelope Bench.deniedBody) = true.
Proof.
  eexists. split; [| reflexivity].
  eapply (NewClient_accepts_api_error (H := Bench.bench) "http://livebox" "wrong" []
            _ _ {| ContextID := EmptyString |}
            {| Status := "null"; Errors := "[{" ++ Bench.field "error" "13" ++ "}]" |});
    [reflexivity | reflexivity | reflexivity | discriminate].
Defined.

(** ** Validation and upsert *)

Section Service.

Context `{Library}.

Lemma portInvalid_false p : portInvalid p = false <-> 1 <= p <= 65535.
Proof.
  unfold portInvalid. rewrite orb_false_iff, !Z.ltb_ge. lia.
Qed.

Lemma concrete_false p :
  negb (String.eqb p ProtocolTCP) && negb (String.eqb p ProtocolUDP)
  && negb (String.eqb p ProtocolTCPUDP) = false <-> ConcreteProtocol p.
Proof.
  unfold ConcreteProtocol.
  destruct (String.eqb_spec p ProtocolTCP), (String.eqb_spec p ProtocolUDP),
    (String.eqb_spec p ProtocolTCPUDP); cbn; intuition congruence.
Qed.

Lemma validate_ok cfg : validate cfg = Ok tt <-> ValidConfig cfg.
Proof.
  unfold validate, ValidConfig.
  destruct (String.eqb_spec (cName cfg) EmptyString) as [Hn|Hn];
    [split; [discriminate | tauto] |].
  destruct (portInvalid (cExternalPort cfg)) eqn:He;
    [split; [discriminate | intros (_ & He' & _); apply portInvalid_false in He'; congruence] |].
  destruct (portInvalid (cInternalPort cfg)) eqn:Hi;
    [split; [discriminate | intros (_ & _ & Hi' & _); apply portInvalid_false in Hi'; congruence] |].
  apply portInvalid_false in He, Hi.
  destruct ((cPortRange cfg <? 0) || (65535 <? cPortRange cfg)) eqn:Hr.
  { split; [discriminate |]. intros (_ & _ & _ & Hr' & _).
    apply orb_true_iff in Hr as [Hr | Hr]; apply Z.ltb_lt in Hr; lia. }
  apply orb_false_iff in Hr as [Hr0 Hr1]. apply Z.ltb_ge in Hr0, Hr1.
  destruct (negb (String.eqb (cProtocol cfg) ProtocolTCP)
            && negb (String.eqb (cProtocol cfg) ProtocolUDP)
            && negb (String.eqb (cProtocol cfg) ProtocolTCPUDP)) eqn:Hp.
  { split; [discriminate |]. intros (_ & _ & _ & _ & Hp' & _).
    apply concrete_false in Hp'. congruence. }
  apply concrete_false in Hp.
  destruct (ParseIP (cDestination cfg)) eqn:Hd.
  - split; [| reflexivity]. intros _. repeat split; auto; try lia; discriminate.
  - split; [discriminate |]. intros (_ & _ & _ & _ & _ & Hd'). congruence.
Qed.

Lemma validate_total cfg : validate cfg = Ok tt \/ exists msg, validate cfg = Err (ErrNew msg).
Proof.
  unfold validate.
  repeat match goal with
         | |- context [if ?b then _ else _] => destruct b; [right; eexists; reflexivity |]
         end.
  destruct (ParseIP _); [left | right; eexists]; reflexivity.
Qed.

Lemma invalid_iff_not_valid cfg : InvalidConfig cfg <-> ~ ValidConfig cfg.
Proof.
  unfold InvalidConfig, ValidConfig. split.
  - intros Hbad (Hn & He & Hi & Hr & Hp & Hd).
    destruct Hbad as [?|[?|[?|[?|[?|?]]]]]; try tauto; lia.
  - intros Hnot.
    destruct (String.eqb_spec (cName cfg) EmptyString) as [|Hn]; [tauto |].
    destruct (Z_lt_dec (cExternalPort cfg) 1); [tauto |].
    destruct (Z_lt_dec 65535 (cExternalPort cfg)); [tauto |].
    destruct (Z_lt_dec (cInternalPort cfg) 1); [tauto |].
    destruct (Z_lt_dec 65535 (cInternalPort cfg)); [tauto |].
    destruct (Z_lt_dec (cPortRange cfg) 0); [tauto |].
    destruct (Z_lt_dec 65535 (cPortRange cfg)); [tauto |].
    destruct (ParseIP (cDestination cfg)) eqn:Hd; [| tauto].
    do 4 right. left. intros Hp. apply Hnot.
    repeat split; auto; try lia; discriminate.
Qed.

Lemma upsert_valid c cfg :
  validate cfg = Ok tt -> UpsertPortForwarding c cfg = upsertCall c cfg.
Proof. intros Hv. unfold UpsertPortForwarding. now rewrite Hv. Qed.

Lemma upsertCall_not_validation c cfg w e w' :
  upsertCall c cfg w <> (Err (ErrWrap "validate configuration" e), w').
Proof.
  unfold upsertCall, bind, wrapM, ret.
  destruct (doReq c (upsertPayload cfg) w) as [[a|e'] w'']; cbn; congruence.
Qed.

(** C7: [UpsertPortForwarding] fails with the validation error, the world
    left as it was, exactly when the configuration breaks one of the
    invariants (empty name, a port outside 1..65535, an extent outside
    0..65535, a protocol that is not one of the three, a destination that does
    not parse); a configuration that satisfies them all passes validation and
    goes on to a single call of the request executor. *)
Theorem upsert_validates_first (c : Client) (cfg : PortForwardingConfig) (w : World) :
  (InvalidConfig cfg <->
   exists e, validate cfg = Err e
             /\ UpsertPortForwarding c cfg w = (Err (ErrWrap "validate configuration" e), w))
  /\ ((exists e w', UpsertPortForwarding c cfg w
                    = (Err (ErrWrap "validate configuration" e), w'))
      -> InvalidConfig cfg)
  /\ (ValidConfig cfg <-> validate cfg = Ok tt)
  /\ (ValidConfig cfg -> UpsertPortForwarding c cfg w = upsertCall c cfg w).
Proof.
  split; [split | split; [| split]].
  - intros Hbad. apply invalid_iff_not_valid in Hbad.
    destruct (validate_total cfg) as [Hok | [msg Herr]].
    + apply validate_ok in Hok. contradiction.
    + exists (ErrNew msg). split; [exact Herr |].
      unfold UpsertPortForwarding. now rewrite Herr.
  - intros (e & Herr & _). apply invalid_iff_not_valid. intros Hv.
    apply validate_ok in Hv. congruence.
  - intros (e & w' & Hup). apply invalid_iff_not_valid. intros Hv.
    apply validate_ok in Hv. rewrite (upsert_valid c cfg Hv) in Hup.
    now apply upsertCall_not_validation in Hup.
  - symmetry. apply validate_ok.
  - intros Hv. apply validate_ok in Hv. now rewrite (upsert_valid c cfg Hv).
Qed.

(** C10: validation bounds the external port and the extent one by one and
    never their sum: every configuration within the invariants passes, and
    with external port 65535 and extent 2 the request carries the external
    port field "65535-65537", which parses back to a range ending beyond
    65535. *)
Theorem validate_bounds_fields_apart (c : Client) (cfg : PortForwardingConfig) (w : World) :
  ValidConfig cfg ->
  validate cfg = Ok tt
  /\ (cExternalPort cfg = 65535 -> cPortRange cfg = 2 ->
      UpsertPortForwarding c cfg w = upsertCall c cfg w
      /\ Parameters (upsertPayload cfg) !! "externalPort" = Some (AString "65535-65537")
      /\ parsePortRange "65535-65537" = Ok (65535, 2)
      /\ 65535 < cExternalPort cfg + cPortRange cfg).
Proof.
  intros Hv. apply validate_ok in Hv. split; [exact Hv |].
  intros He Hr. repeat split.
  - now rewrite (upsert_valid c cfg Hv).
  - unfold upsertPayload. cbn [Parameters]. rewrite He, Hr.
    rewrite !lookup_insert_ne by discriminate. now rewrite lookup_insert_eq.
  - lia.
Qed.

(** C8: when the upsert of the configuration built from a plan succeeds, the
    resource stores a state whose seven fields are the fields of that
    configuration, each known and copied as it is, so that reading the state
    back gives the configuration again. *)
Theorem upsert_returns_config (client : Client) (plan : portForwardingModel)
    (cfg : PortForwardingConfig) (w w' : World) :
  cfg = configOfModel plan ->
  ValidConfig cfg ->
  UpsertPortForwarding client cfg w = (Ok tt, w') ->
  Create client plan w = ({| Diagnostics := []; State := Some (modelOfConfig cfg) |}, w')
  /\ Update client plan w = ({| Diagnostics := []; State := Some (modelOfConfig cfg) |}, w')
  /\ configOfModel (modelOfConfig cfg) = cfg
  /\ mName (modelOfConfig cfg) = TFKnown (cName cfg)
  /\ mProtocol (modelOfConfig cfg) = TFKnown (cProtocol cfg)
  /\ mExternalPort (modelOfConfig cfg) = TFKnown (cExternalPort cfg)
  /\ mInternalPort (modelOfConfig cfg) = TFKnown (cInternalPort cfg)
  /\ mPortRange (modelOfConfig cfg) = TFKnown (cPortRange cfg)
  /\ mDestination (modelOfConfig cfg) = TFKnown (cDestination cfg)
  /\ mEnabled (modelOfConfig cfg) = TFKnown (cEnabled cfg).
Proof.
  intros -> _ Hup. unfold Create, Update. cbv zeta. rewrite Hup.
  repeat split.
Qed.

End Service.

Lemma upsert_validates_first_witness :
  UpsertPortForwarding Bench.session Bench.wireguardConfig []
  = upsertCall Bench.session Bench.wireguardConfig []
  /\ (exists e, UpsertPortForwarding Bench.session Bench.icmpConfig []
                = (Err (ErrWrap "validate configuration" e), [])).
Proof.
  split.
  - destruct (upsert_validates_first (H := Bench.bench)
                Bench.session Bench.wireguardConfig []) as (_ & _ & Hv & Hcall).
    apply Hcall, Hv. reflexivity.
  - destruct (upsert_validates_first (H := Bench.bench)
                Bench.session Bench.icmpConfig []) as ([Hbad _] & _).
    destruct Hbad as (e & _ & He); [| exists e; exact He].
    do 4 right. left. intros [Hp | [Hp | Hp]]; discriminate Hp.
Defined.

Lemma validate_bounds_fields_apart_witness :
  validate (H := Bench.bench) Bench.edgeConfig = Ok tt
  /\ Parameters (upsertPayload Bench.edgeConfig) !! "externalPort"
     = Some (AString "65535-65537").
Proof.
  assert (Hv : ValidConfig (H := Bench.bench) Bench.edgeConfig).
  { unfold ValidConfig. cbn.
    repeat split; try lia; try discriminate. left. reflexivity. }
  destruct (validate_bounds_fields_apart (H := Bench.bench)
              Bench.session Bench.edgeConfig [] Hv) as [Hok Hedge].
  destruct (Hedge eq_refl eq_refl) as (_ & Hfield & _).
  split; [exact Hok | exact Hfield].
Defined.

Lemma upsert_returns_config_witness :
  exists w',
    Create (H := Bench.bench) Bench.session Bench.wireguardPlan []
    = ({| Diagnostics := []; State := Some (modelOfConfig Bench.wireguardConfig) |}, w').
Proof.
  eexists.
  refine (proj1 (upsert_returns_config (H := Bench.bench) Bench.session
                   Bench.wireguardPlan Bench.wireguardConfig [] _ eq_refl _ _)).
  - unfold ValidConfig. cbn.
    repeat split; try lia; try discriminate. right. left. reflexivity.
  - reflexivity.
Defined.

(** ** Listing *)

Section Listing.

Context `{Library}.

Lemma HasPrefix_append p s : HasPrefix (p ++ s) p = true.
Proof.
  unfold HasPrefix. induction p as [|x t IH].
  - now destruct s.
  - rewrite append_String. cbn [String.prefix].
    destruct (ascii_dec x x); [exact IH | congruence].
Qed.

Lemma drop_append p s : GoStrings.drop (String.length p) (p ++ s) = s.
Proof. induction p as [|x t IH]; [now destruct s | exact IH]. Qed.

Lemma TrimPrefix_append p s : TrimPrefix (p ++ s) p = s.
Proof. unfold TrimPrefix. now rewrite HasPrefix_append, drop_append. Qed.









End Listing.


(** ** Replacing text *)

Lemma replaceFrom_absent old new s :
  Contains s old = false -> replaceFrom old new O s = s.
Proof.
  induction s as [|c t IH]; [reflexivity |].
  cbn [Contains]. intros Hc. apply orb_false_iff in Hc as [Hp Ht].
  cbn [replaceFrom]. now rewrite Hp, IH.
Qed.

Lemma replaceFrom_skip old new a s :
  replaceFrom old new (String.length a) (a ++ s) = replaceFrom old new O s.
Proof.
  induction a as [|x t IH]; [now destruct s |].
  rewrite append_String. exact IH.
Qed.


(** ** Splitting at a separator *)








(** ** The cookie renaming transport *)

Section Shim.

Context `{Library}.

Lemma rewriteFirst_get (h : gmap string (list string)) key old new :
  Contains EmptyString old = false ->
  (if Contains (headerGet h key) old
   then headerSetFirst h key (ReplaceAll (headerGet h key) old new)
   else h) !! key
  = rewriteFirst (fun v => ReplaceAll v old new) <$> h !! key.
Proof.
  intros Hold. unfold headerGet, headerSetFirst.
  destruct (h !! key) as [[|v vs]|] eqn:Hk.
  - rewrite Hold, Hk. reflexivity.
  - destruct (Contains v old) eqn:Hc.
    + rewrite lookup_alter_eq, Hk. reflexivity.
    + rewrite Hk. cbn. unfold ReplaceAll. now rewrite replaceFrom_absent.
  - rewrite Hold, Hk. reflexivity.
Qed.

Lemma rewriteFirst_other (h : gmap string (list string)) key other old new :
  key <> other ->
  (if Contains (headerGet h key) old
   then headerSetFirst h key (ReplaceAll (headerGet h key) old new)
   else h) !! other
  = h !! other.
Proof.
  intros Hne. destruct (Contains (headerGet h key) old); [| reflexivity].
  unfold headerSetFirst. now rewrite lookup_alter_ne.
Qed.

Lemma patchRequest_header req :
  reqHeader (patchRequest req)
  = if Contains (headerGet (reqHeader req) "Cookie") patchedCookieName
    then headerSetFirst (reqHeader req) "Cookie"
           (ReplaceAll (headerGet (reqHeader req) "Cookie")
                       patchedCookieName realCookieName)
    else reqHeader req.
Proof. unfold patchRequest. now destruct (Contains _ _). Qed.

Lemma patchResponse_header resp :
  respHeader (patchResponse resp)
  = if Contains (headerGet (respHeader resp) "Set-Cookie") realCookieName
    then headerSetFirst (respHeader resp) "Set-Cookie"
           (ReplaceAll (headerGet (respHeader resp) "Set-Cookie")
                       realCookieName patchedCookieName)
    else respHeader resp.
Proof. unfold patchResponse. now destruct (Contains _ _). Qed.



End Shim.



(** * Further properties *)

(** ** The port-range codec at its edges *)

Lemma sub_ports p q :
  0 <= p <= 65535 -> 0 <= q <= 65535 -> GoInt.sub q p = q - p.
Proof.
  intros Hp Hq. unfold GoInt.sub. apply wrap_id.
  unfold GoInt.inRange, GoInt.minInt, GoInt.maxInt. lia.
Qed.

(** X1: a dashed text of two ports parses to the first port and the
    difference of the two, which is negative when the range runs backwards;
    nothing checks that the end lies after the start. *)
Theorem parsePortRange_difference (p q : Z) :
  0 <= p <= 65535 -> 0 <= q <= 65535 ->
  parsePortRange (Itoa p ++ "-" ++ Itoa q) = Ok (p, q - p)
  /\ (q < p -> exists extent,
        parsePortRange (Itoa p ++ "-" ++ Itoa q) = Ok (p, extent) /\ extent < 0).
Proof.
  intros Hp Hq.
  assert (Heq : parsePortRange (Itoa p ++ "-" ++ Itoa q) = Ok (p, q - p)).
  { rewrite parsePortRange_dashed; try (apply port_inRange; lia); try lia.
    now rewrite sub_ports. }
  split; [exact Heq |]. intros Hlt. exists (q - p). split; [exact Heq | lia].
Qed.

Lemma parsePortRange_difference_witness :
  parsePortRange "10005-10000" = Ok (10005, -5).
Proof.
  exact (proj1 (parsePortRange_difference 10005 10000 ltac:(lia) ltac:(lia))).
Defined.

(** X2: an extent of 1 does not survive the codec: the text written for
    [(p, 1)] is the plain port and reads back as [(p, 0)], and the text of
    the range from [p] to [p + 1] reads as [(p, 1)] and is written back as the
    plain port. *)
Theorem portRange_extent_one_collapses (p : Z) :
  0 <= p < 65535 ->
  parsePortRange (formatPortRange p 1) = Ok (p, 0)
  /\ parsePortRange (Itoa p ++ "-" ++ Itoa (p + 1)) = Ok (p, 1)
  /\ formatPortRange p 1 = Itoa p
  /\ formatPortRange p 1 <> Itoa p ++ "-" ++ Itoa (p + 1).
Proof.
  intros Hp. assert (Hr : GoInt.inRange p) by (apply port_inRange; lia).
  split; [| split; [| split]].
  - change (formatPortRange p 1) with (Itoa p).
    apply parsePortRange_plain; [lia | exact Hr].
  - rewrite parsePortRange_dashed; [| lia | exact Hr | apply port_inRange; lia].
    rewrite sub_ports by lia. f_equal. f_equal. lia.
  - reflexivity.
  - change (formatPortRange p 1) with (Itoa p). intros Heq.
    assert (Hlen : String.length (Itoa p)
                   = String.length (Itoa p ++ "-" ++ Itoa (p + 1))) by now rewrite <- Heq.
    clear Heq. revert Hlen. generalize (Itoa (p + 1)) as tail.
    induction (Itoa p) as [|x t IH]; intros tail Hlen; [discriminate |].
    rewrite append_String in Hlen. injection Hlen as Hlen. eauto.
Qed.

Lemma portRange_extent_one_collapses_witness :
  parsePortRange (formatPortRange 27000 1) = Ok (27000, 0)
  /\ parsePortRange "27000-27001" = Ok (27000, 1).
Proof.
  destruct (portRange_extent_one_collapses 27000 ltac:(lia)) as (H0 & H1 & _).
  split; [exact H0 | exact H1].
Defined.

(** X3: a negative port is written with a leading minus sign, which the
    parser takes for the separator: the text that [formatPortRange] writes
    for a negative port is never read back. *)
Theorem parsePortRange_negative_port (p r : Z) :
  p < 0 ->
  parsePortRange (formatPortRange p r)
  = Err (ErrWrap "parse external port" (ErrNum "Atoi" EmptyString)).
Proof.
  intros Hp. destruct p as [|q|q]; try lia.
  unfold formatPortRange. destruct (Itoa_neg q) as [Hq _].
  destruct ((r =? 0) || (r =? 1)); rewrite Hq, ?append_String;
    unfold parsePortRange; cbn [SplitN Cut]; rewrite HasPrefix_char; reflexivity.
Qed.

Lemma parsePortRange_negative_port_witness :
  parsePortRange (formatPortRange (-8080) 4)
  = Err (ErrWrap "parse external port" (ErrNum "Atoi" EmptyString)).
Proof. exact (parsePortRange_negative_port (-8080) 4 ltac:(lia)). Defined.

(** ** The protocol codec on every text *)

(** X4: reading a wire text and writing the result back gives the text again
    exactly for the three wire values and the empty text for every other
    one; what is read is always one of the four named protocols. *)
Theorem protocol_wire_roundtrip (wire : string) :
  intString (parseProtocol wire)
  = (if String.eqb wire "6" || String.eqb wire "17" || String.eqb wire "6,17"
     then wire else EmptyString)
  /\ (ConcreteProtocol (parseProtocol wire) \/ parseProtocol wire = ProtocolUnknown).
Proof.
  unfold parseProtocol, ConcreteProtocol.
  destruct (String.eqb_spec wire "6") as [->|]; [split; [reflexivity | tauto] |].
  destruct (String.eqb_spec wire "17") as [->|]; [split; [reflexivity | tauto] |].
  destruct (String.eqb_spec wire "6,17") as [->|]; split; try reflexivity; tauto.
Qed.

(** X5: a protocol is written as a wire value exactly when it is one of the
    three concrete protocols; every other value of the string type, the
    unknown protocol among them, is written as the empty text; the concrete
    ones are read back as themselves. *)
Theorem intString_concrete (p : Protocol) :
  (intString p <> EmptyString <-> ConcreteProtocol p)
  /\ (ConcreteProtocol p -> parseProtocol (intString p) = p)
  /\ (~ ConcreteProtocol p -> parseProtocol (intString p) = ProtocolUnknown).
Proof.
  unfold intString, ConcreteProtocol.
  destruct (String.eqb_spec p ProtocolTCP) as [->|H1].
  { repeat split; try tauto; try discriminate. }
  destruct (String.eqb_spec p ProtocolUDP) as [->|H2].
  { repeat split; try tauto; try discriminate. }
  destruct (String.eqb_spec p ProtocolTCPUDP) as [->|H3].
  { repeat split; try tauto; try discriminate. }
  split; [split; [congruence | tauto] |]. split; [tauto | reflexivity].
Qed.

Lemma intString_concrete_witness :
  parseProtocol (intString ProtocolTCPUDP) = ProtocolTCPUDP
  /\ parseProtocol (intString "icmp") = ProtocolUnknown.
Proof.
  split.
  - apply (proj1 (proj2 (intString_concrete ProtocolTCPUDP))). right. right. reflexivity.
  - apply (proj2 (proj2 (intString_concrete "icmp"))).
    intros [Hp | [Hp | Hp]]; discriminate Hp.
Defined.

(** ** Validation, payloads and the way back *)

Section ServiceMore.

Context `{Library}.

(** X6: [validate] reports the first check that fails, in the order name,
    external port, internal port, extent; an internal port out of bounds is
    reported with the message of the external port, and an extent out of
    bounds with a message that names the bounds 1 and 65535 although 0 is
    accepted. *)
Theorem validate_first_failure (cfg : PortForwardingConfig) :
  (cName cfg = EmptyString -> validate cfg = Err (ErrNew "empty name"))
  /\ (cName cfg <> EmptyString ->
      (cExternalPort cfg < 1 \/ 65535 < cExternalPort cfg ->
       validate cfg = Err (ErrNew "invalid external port; must be between 1 and 65535"))
      /\ (1 <= cExternalPort cfg <= 65535 ->
          (cInternalPort cfg < 1 \/ 65535 < cInternalPort cfg ->
           validate cfg = Err (ErrNew "invalid external port; must be between 1 and 65535"))
          /\ (1 <= cInternalPort cfg <= 65535 ->
              (cPortRange cfg < 0 \/ 65535 < cPortRange cfg ->
               validate cfg = Err (ErrNew "invalid port range; must be between 1 and 65535"))
              /\ (cPortRange cfg = 0 -> ConcreteProtocol (cProtocol cfg) ->
                  ParseIP (cDestination cfg) <> None -> validate cfg = Ok tt)))).
Proof.
  unfold validate. split.
  - intros ->. reflexivity.
  - intros Hn. apply String.eqb_neq in Hn. rewrite Hn. split.
    + intros He. assert (Hb : portInvalid (cExternalPort cfg) = true).
      { unfold portInvalid. apply orb_true_iff. rewrite !Z.ltb_lt. exact He. }
      now rewrite Hb.
    + intros He. apply portInvalid_false in He. rewrite He. split.
      * intros Hi. assert (Hb : portInvalid (cInternalPort cfg) = true).
        { unfold portInvalid. apply orb_true_iff. rewrite !Z.ltb_lt. exact Hi. }
        now rewrite Hb.
      * intros Hi. apply portInvalid_false in Hi. rewrite Hi. split.
        -- intros Hr.
           assert (Hb : (cPortRange cfg <? 0) || (65535 <? cPortRange cfg) = true).
           { apply orb_true_iff. rewrite !Z.ltb_lt. exact Hr. }
           now rewrite Hb.
        -- intros -> Hp Hd. cbn. apply concrete_false in Hp. rewrite Hp.
           destruct (ParseIP (cDestination cfg)); [reflexivity | congruence].
Qed.

(** X7: a configuration that passes validation is sent with a protocol
    field that is one of the three wire values and reads back as the protocol
    of the configuration: the empty encoding of the unknown protocol never
    reaches a request. *)
Theorem upsertPayload_protocol (cfg : PortForwardingConfig) :
  validate cfg = Ok tt ->
  exists wire,
    Parameters (upsertPayload cfg) !! "protocol" = Some (AString wire)
    /\ (wire = "6" \/ wire = "17" \/ wire = "6,17")
    /\ parseProtocol wire = cProtocol cfg.
Proof.
  intros Hv. apply validate_ok in Hv. destruct Hv as (_ & _ & _ & _ & Hp & _).
  exists (intString (cProtocol cfg)). split.
  - unfold upsertPayload. cbn [Parameters].
    rewrite !lookup_insert_ne by discriminate. now rewrite lookup_insert_eq.
  - destruct Hp as [-> | [-> | ->]]; split; auto.
Qed.



(** X10: an identifier that does not start with webui_ is taken as the name
    as it is, and the prefix is cut once only, so two entries of one mapping,
    x and webui_x, decode to records of the same name. *)
Theorem decodeEntry_names (id : string) (raw : getPortForwardingResp) (pf : PortForwarding) :
  decodeEntry id raw = Ok pf ->
  (HasPrefix id "webui_" = false -> Name pf = id)
  /\ (forall pf', decodeEntry ("webui_" ++ id) raw = Ok pf' -> Name pf' = id)
  /\ (HasPrefix id "webui_" = false ->
      exists pf', decodeEntry ("webui_" ++ id) raw = Ok pf' /\ Name pf' = Name pf).
Proof.
  unfold decodeEntry.
  destruct (parsePortRange (rExternalPort raw)) as [[port extent]|]; [| discriminate].
  destruct (Atoi (rInternalPort raw)); [| discriminate].
  intros [= <-]. cbn [Name]. split; [| split].
  - intros Hp. unfold TrimPrefix. now rewrite Hp.
  - intros pf' [= <-]. apply TrimPrefix_append.
  - intros Hp. eexists. split; [reflexivity |]. cbn [Name].
    rewrite TrimPrefix_append. unfold TrimPrefix. now rewrite Hp.
Qed.

End ServiceMore.

Lemma validate_first_failure_witness :
  validate (H := Bench.bench)
    {| cName := "web"; cExternalPort := 80; cInternalPort := 0; cPortRange := 0;
       cProtocol := ProtocolTCP; cDestination := "192.168.10.2"; cEnabled := true |}
  = Err (ErrNew "invalid external port; must be between 1 and 65535").
Proof.
  destruct (validate_first_failure (H := Bench.bench)
              {| cName := "web"; cExternalPort := 80; cInternalPort := 0;
                 cPortRange := 0; cProtocol := ProtocolTCP;
                 cDestination := "192.168.10.2"; cEnabled := true |})
    as (_ & Hnamed).
  destruct (Hnamed ltac:(discriminate)) as (_ & Hext).
  destruct (Hext ltac:(cbn; lia)) as (Hint & _).
  apply Hint. cbn. lia.
Defined.

Lemma upsertPayload_protocol_witness :
  exists wire,
    Parameters (upsertPayload Bench.wireguardConfig) !! "protocol" = Some (AString wire)
    /\ (wire = "6" \/ wire = "17" \/ wire = "6,17")
    /\ parseProtocol wire = ProtocolUDP.
Proof.
  exact (upsertPayload_protocol (H := Bench.bench) Bench.wireguardConfig eq_refl).
Defined.



Lemma decodeEntry_names_witness :
  exists pf', decodeEntry "webui_wireguard" Bench.wireguard = Ok pf'
              /\ Name pf' = "wireguard".
Proof.
  destruct (decodeEntry_names "wireguard" Bench.wireguard
              {| Name := "wireguard"; Protocol_ := ProtocolUDP; ExternalPort := 51820;
                 InternalPort := 51820; PortRange := 0;
                 Destination := "192.168.10.200"; Enabled := true |} eq_refl)
    as (_ & _ & Hsame).
  exact (Hsame eq_refl).
Defined.

(** ** Requests, errors and lookups *)

Section ExecutorMore.

Context `{Library}.

Lemma buildRequest_client c authorization r b :
  jsonMarshal r = Ok b -> parseURL (host c ++ "/ws") = Ok tt ->
  buildRequest c authorization r = Ok (clientRequest c authorization b).
Proof.
  intros Hm Hu. unfold buildRequest, NewRequest. now rewrite Hm, Hu.
Qed.

Lemma buildRequest_inv c authorization r req :
  buildRequest c authorization r = Ok req ->
  exists b, jsonMarshal r = Ok b /\ parseURL (host c ++ "/ws") = Ok tt
            /\ req = clientRequest c authorization b.
Proof.
  unfold buildRequest, NewRequest.
  destruct (jsonMarshal r) as [b|]; [| discriminate].
  destruct (parseURL (host c ++ "/ws")) as [[]|]; [| discriminate].
  intros [= <-]. eauto.
Qed.

Lemma doReq_decoded c r w w' req resp env :
  buildRequest c ("X-Sah " ++ token c) r = Ok req ->
  clientDo (Transport (httpClient c)) req w = (Ok resp, w') ->
  decodeEnvelope (respBody resp) = Ok env ->
  doReq c r w
  = (if (0 <? String.length (Errors env))%nat
     then Err (ErrAPI (Errors env)) else Ok (Status env), w').
Proof.
  intros Hreq Hdo Hdec. unfold doReq.
  rewrite Hreq, bind_ret_ok, (bind_ok _ _ _ _ _ Hdo), Hdec, bind_ret_ok.
  now destruct (0 <? String.length (Errors env))%nat.
Qed.

Lemma doReq_hands c r w b :
  jsonMarshal r = Ok b -> parseURL (host c ++ "/ws") = Ok tt ->
  doReq c r w
  = match clientDo (Transport (httpClient c))
            (clientRequest c ("X-Sah " ++ token c) b) w with
    | (Ok resp, w') =>
        (match decodeEnvelope (respBody resp) with
         | Ok env => if (0 <? String.length (Errors env))%nat
                     then Err (ErrAPI (Errors env)) else Ok (Status env)
         | Err e => Err e
         end, w')
    | (Err e, w') => (Err e, w')
    end.
Proof.
  intros Hm Hu. unfold doReq.
  rewrite (buildRequest_client c _ r b Hm Hu). unfold bind at 1, ret at 1.
  unfold bind at 1.
  destruct (clientDo _ _ w) as [[resp | e] w']; [| reflexivity].
  unfold bind, ret.
  destruct (decodeEnvelope (respBody resp)) as [env | e]; [| reflexivity].
  now destruct (0 <? String.length (Errors env))%nat.
Qed.

(** X11: the two entry points hand the HTTP client the same request, a POST
    to the host followed by /ws whose header holds exactly Authorization and
    Content-Type, and differ only in the value of Authorization: the login
    marker alone for [doAuthReq], the marker followed by the token of the
    client for [doReq].  [doAuthReq] returns what the HTTP client returns;
    [doReq] returns its error as it is and otherwise decides on the decoded
    body of its response.  When the envelope cannot be marshalled or the URL
    does not parse, both return that error and the HTTP client is not
    called. *)
Theorem request_handed_to_client (c : Client) (r : apiRequest) (w : World) :
  (forall b, jsonMarshal r = Ok b -> parseURL (host c ++ "/ws") = Ok tt ->
     doAuthReq c r w
     = clientDo (Transport (httpClient c)) (clientRequest c "X-Sah-Login" b) w
     /\ doReq c r w
        = match clientDo (Transport (httpClient c))
                  (clientRequest c ("X-Sah " ++ token c) b) w with
          | (Ok resp, w') =>
              (match decodeEnvelope (respBody resp) with
               | Ok env => if (0 <? String.length (Errors env))%nat
                           then Err (ErrAPI (Errors env)) else Ok (Status env)
               | Err e => Err e
               end, w')
          | (Err e, w') => (Err e, w')
          end
     /\ (forall authorization,
           reqMethod (clientRequest c authorization b) = "POST"
           /\ reqURL (clientRequest c authorization b) = host c ++ "/ws"
           /\ reqBody (clientRequest c authorization b) = b
           /\ dom (reqHeader (clientRequest c authorization b))
              = {["Authorization"; "Content-Type"]}
           /\ reqHeader (clientRequest c authorization b) !! "Authorization"
              = Some [authorization]
           /\ reqHeader (clientRequest c authorization b) !! "Content-Type"
              = Some ["application/x-sah-ws-4-call+json"]
           /\ withReqHeader (clientRequest c authorization b)
                (headerSet (reqHeader (clientRequest c authorization b))
                   "Authorization" "X-Sah-Login")
              = clientRequest c "X-Sah-Login" b))
  /\ (forall e, jsonMarshal r = Err e ->
        doReq c r w = (Err e, w) /\ doAuthReq c r w = (Err e, w))
  /\ (forall b e, jsonMarshal r = Ok b -> parseURL (host c ++ "/ws") = Err e ->
        doReq c r w = (Err e, w) /\ doAuthReq c r w = (Err e, w)).
Proof.
  split; [| split].
  - intros b Hm Hu. split; [| split].
    + unfold doAuthReq. now rewrite (buildRequest_client c _ r b Hm Hu).
    + now apply doReq_hands.
    + intros authorization. repeat split.
  - intros e Hm. unfold doReq, doAuthReq, buildRequest. now rewrite Hm.
  - intros b e Hm Hu. unfold doReq, doAuthReq, buildRequest, NewRequest.
    now rewrite Hm, Hu.
Qed.

(** X12: [NewClient] calls the HTTP client exactly once, over the cookie
    renaming transport, with the unauthenticated request of the login
    payload, and the world it leaves is the one that call leaves.  An error
    of the call or of decoding its answer is returned as it is.  When the
    answer decodes, the client returned keeps the host and the transport and
    holds the decoded context identifier as its token, and every [doReq] of
    that client hands the HTTP client a request whose Authorization is the
    marker followed by that identifier. *)
Theorem NewClient_logs_in_once (host_ password : string) (w w' : World)
    (b : string) (answer : Result Response) :
  jsonMarshal (loginPayload password) = Ok b ->
  parseURL (host_ ++ "/ws") = Ok tt ->
  clientDo (cookieNamePatcher_RoundTrip transportRoundTrip)
    (clientRequest (freshClient host_) "X-Sah-Login" b) w = (answer, w') ->
  (forall e, answer = Err e -> NewClient host_ password w = (Err e, w'))
  /\ (forall resp e, answer = Ok resp -> decodeLogin (respBody resp) = Err e ->
        NewClient host_ password w = (Err e, w'))
  /\ (forall resp lr, answer = Ok resp -> decodeLogin (respBody resp) = Ok lr ->
        exists c,
          NewClient host_ password w = (Ok c, w')
          /\ host c = host_ /\ token c = ContextID lr
          /\ Transport (httpClient c) = cookieNamePatcher_RoundTrip transportRoundTrip
          /\ forall r body w1, jsonMarshal r = Ok body ->
               snd (doReq c r w1)
               = snd (clientDo (cookieNamePatcher_RoundTrip transportRoundTrip)
                        (clientRequest (freshClient host_)
                           ("X-Sah " ++ ContextID lr) body) w1)
               /\ (forall e,
                     fst (clientDo (cookieNamePatcher_RoundTrip transportRoundTrip)
                            (clientRequest (freshClient host_)
                               ("X-Sah " ++ ContextID lr) body) w1) = Err e ->
                     fst (doReq c r w1) = Err e)).
Proof.
  intros Hm Hu Hdo.
  assert (Hrun : NewClient host_ password w
                 = match answer with
                   | Ok resp =>
                       match decodeLogin (respBody resp) with
                       | Ok lr => (Ok (withToken (freshClient host_) (ContextID lr)), w')
                       | Err e => (Err e, w')
                       end
                   | Err e => (Err e, w')
                   end).
  { unfold NewClient, login, doAuthReq.
    change {| host := host_; token := EmptyString;
              httpClient := {| Transport := cookieNamePatcher_RoundTrip transportRoundTrip |} |}
      with (freshClient host_).
    rewrite (buildRequest_client (freshClient host_) _ _ b Hm Hu).
    change (Transport (httpClient (freshClient host_)))
      with (cookieNamePatcher_RoundTrip transportRoundTrip).
    unfold bind, ret. cbv beta iota. rewrite Hdo.
    destruct answer as [resp | e]; [| reflexivity].
    now destruct (decodeLogin (respBody resp)). }
  split; [| split].
  - intros e ->. exact Hrun.
  - intros resp e -> Hlr. now rewrite Hrun, Hlr.
  - intros resp lr -> Hlr. exists (withToken (freshClient host_) (ContextID lr)).
    split; [now rewrite Hrun, Hlr |].
    split; [reflexivity | split; [reflexivity | split; [reflexivity |]]].
    intros r body w1 Hbody.
    rewrite (doReq_hands (withToken (freshClient host_) (ContextID lr)) r w1 body Hbody Hu).
    change (Transport (httpClient (withToken (freshClient host_) (ContextID lr))))
      with (cookieNamePatcher_RoundTrip transportRoundTrip).
    change (clientRequest (withToken (freshClient host_) (ContextID lr))
              ("X-Sah " ++ token (withToken (freshClient host_) (ContextID lr))) body)
      with (clientRequest (freshClient host_) ("X-Sah " ++ ContextID lr) body).
    destruct (clientDo _ _ w1) as [[resp1 | e1] w2]; cbn [fst snd].
    + split; [reflexivity | discriminate].
    + split; [reflexivity | now intros e [= <-]].
Qed.


(** X14: when the listing succeeds, [GetPortForwarding] returns a record
    only if it is a record of the listing that bears the name, returns one
    whenever the listing holds such a record, and returns the not-found error
    exactly when no record of the listing bears the name. *)
Theorem GetPortForwarding_finds (c : Client) (name : string) (w w' : World)
    (pfs : list PortForwarding) :
  ListPortForwardings c w = (Ok pfs, w') ->
  (forall pf, GetPortForwarding c name w = (Ok pf, w') ->
              pf ∈ pfs /\ Name pf = name)
  /\ ((exists pf, pf ∈ pfs /\ Name pf = name) ->
      exists pf, GetPortForwarding c name w = (Ok pf, w'))
  /\ ((forall pf, pf ∈ pfs -> Name pf <> name) <->
      GetPortForwarding c name w = (Err (ErrNew "port forward not found"), w')).
Proof.
  intros Hlist. unfold GetPortForwarding, bind, wrapM. rewrite Hlist. cbn [wrapErr].
  destruct (find (fun pf => String.eqb (Name pf) name) pfs) as [found|] eqn:Hf.
  - apply find_some in Hf as [Hin Hname]. apply String.eqb_eq in Hname.
    apply list_elem_of_In in Hin. unfold ret. split; [| split].
    + intros pf [= <-]. split; assumption.
    + intros _. eauto.
    + split; [intros Hnone; now destruct (Hnone found Hin) | discriminate].
  - unfold ret. split; [| split].
    + discriminate.
    + intros (pf & Hin & Hname). apply list_elem_of_In in Hin.
      apply (find_none _ _ Hf) in Hin. apply String.eqb_neq in Hin. contradiction.
    + split; [reflexivity |]. intros _ pf Hin. apply list_elem_of_In in Hin.
      apply (find_none _ _ Hf) in Hin. now apply String.eqb_neq in Hin.
Qed.

(** X15: when the router answers an upsert with a non-empty errors payload,
    [Create] stores no state and reports one diagnostic for the rule, whose
    cause is the API error with that payload under "do request". *)
Theorem Create_reports_api_error (client : Client) (plan : portForwardingModel)
    (w w' : World) (req : Request) (resp : Response) (env : apiResponse) :
  validate (configOfModel plan) = Ok tt ->
  buildRequest client ("X-Sah " ++ token client) (upsertPayload (configOfModel plan))
  = Ok req ->
  clientDo (Transport (httpClient client)) req w = (Ok resp, w') ->
  decodeEnvelope (respBody resp) = Ok env ->
  Errors env <> EmptyString ->
  Create client plan w
  = ({| Diagnostics := [{| summary := "Error creating port forward";
                           subject := valueOr EmptyString (mName plan);
                           cause := ErrWrap "do request" (ErrAPI (Errors env)) |}];
        State := None |}, w').
Proof.
  intros Hv Hreq Hdo Hdec Herr. unfold Create. cbv zeta.
  rewrite (upsert_valid _ _ Hv). unfold upsertCall, bind, wrapM.
  rewrite (doReq_decoded _ _ _ _ _ _ _ Hreq Hdo Hdec).
  destruct (Errors env) as [|x t]; [congruence |]. reflexivity.
Qed.


End ExecutorMore.

Lemma request_handed_to_client_witness :
  snd (doReq (H := Bench.bench) Bench.session listPayload [])
  = [clientRequest (H := Bench.bench) Bench.session "X-Sah c0ffee"
       "Firewall.getPortForwarding"]
  /\ doReq (H := Bench.bench) (withToken (freshClient "://livebox") "c0ffee")
       listPayload []
     = (Err (ErrLib "missing protocol scheme"), []).
Proof.
  split.
  - destruct (request_handed_to_client (H := Bench.bench) Bench.session listPayload [])
      as (Hsent & _ & _).
    destruct (Hsent "Firewall.getPortForwarding" eq_refl eq_refl) as (_ & -> & _).
    vm_compute. reflexivity.
  - destruct (request_handed_to_client (H := Bench.bench)
                (withToken (freshClient "://livebox") "c0ffee") listPayload [])
      as (_ & _ & Hurl).
    exact (proj1 (Hurl "Firewall.getPortForwarding" _ eq_refl eq_refl)).
Defined.

Lemma NewClient_logs_in_once_witness :
  exists c w',
    NewClient (H := Bench.bench) "http://livebox" "secret" [] = (Ok c, w')
    /\ token c = "c0ffee"
    /\ snd (doReq c listPayload w')
       = (w' ++ [clientRequest (H := Bench.bench) (freshClient "http://livebox")
                   "X-Sah c0ffee" "Firewall.getPortForwarding"])%list.
Proof.
  edestruct (NewClient_logs_in_once (H := Bench.bench) "http://livebox" "secret" [])
    as (_ & _ & Hok); [reflexivity | reflexivity | reflexivity |].
  destruct (Hok _ {| ContextID := "c0ffee" |} eq_refl eq_refl)
    as (c & Hnew & _ & Htoken & _ & Hlater).
  exists c. eexists. split; [exact Hnew |]. split; [exact Htoken |].
  rewrite (proj1 (Hlater listPayload "Firewall.getPortForwarding" _ eq_refl)).
  vm_compute. reflexivity.
Defined.


Lemma bench_listing :
  exists w',
    ListPortForwardings (H := Bench.bench) Bench.session []
    = (Ok [{| Name := "wireguard"; Protocol_ := ProtocolUDP; ExternalPort := 51820;
              InternalPort := 51820; PortRange := 0; Destination := "192.168.10.200";
              Enabled := true |}], w').
Proof. eexists. vm_compute. reflexivity. Qed.

Lemma GetPortForwarding_finds_witness :
  (exists pf w', GetPortForwarding (H := Bench.bench) Bench.session "wireguard" []
                 = (Ok pf, w'))
  /\ (exists w', GetPortForwarding (H := Bench.bench) Bench.session "missing" []
                 = (Err (ErrNew "port forward not found"), w')).
Proof.
  destruct bench_listing as [w' Hlist]. split.
  - destruct (GetPortForwarding_finds (H := Bench.bench) Bench.session "wireguard"
                [] w' _ Hlist) as (_ & Hsome & _).
    destruct Hsome as [pf Hpf]; [| eauto].
    eexists. split; [left | reflexivity].
  - destruct (GetPortForwarding_finds (H := Bench.bench) Bench.session "missing"
                [] w' _ Hlist) as (_ & _ & [Hnone _]).
    exists w'. apply Hnone. intros pf Hin.
    apply list_elem_of_singleton in Hin. subst pf. discriminate.
Defined.

Lemma Create_reports_api_error_witness :
  exists w',
    Create (H := Bench.bench) Bench.anonymous Bench.wireguardPlan []
    = ({| Diagnostics := [{| summary := "Error creating port forward";
                             subject := "wireguard";
                             cause := ErrWrap "do request"
                                        (ErrAPI ("[{" ++ Bench.field "error" "13" ++ "}]")) |}];
          State := None |}, w').
Proof.
  eexists.
  eapply (Create_reports_api_error (H := Bench.bench) Bench.anonymous
            Bench.wireguardPlan [] _ _ _
            {| Status := "null"; Errors := "[{" ++ Bench.field "error" "13" ++ "}]" |});
    [reflexivity | reflexivity | reflexivity | reflexivity | discriminate].
Defined.


(** ** Renaming there and back *)

Section Renaming.

Variables (a b : ascii) (r : string).
Hypothesis Ha : freeOf a r = true.
Hypothesis Hb : freeOf b r = true.
Hypothesis Hab : a <> b.

Lemma length_append (x y : string) :
  String.length (x ++ y) = (String.length x + String.length y)%nat.
Proof. induction x as [|c t IH]; [reflexivity |]. rewrite append_String. cbn. now rewrite IH. Qed.

Lemma HasPrefix_split p : forall s,
  HasPrefix s p = true -> exists t, s = p ++ t.
Proof.
  unfold HasPrefix. induction p as [|o ot IH]; intros s Hp; [exists s; reflexivity |].
  destruct s as [|c t]; [discriminate |]. cbn [String.prefix] in Hp.
  destruct (ascii_dec o c) as [<-|]; [| discriminate].
  destruct (IH t Hp) as [t' ->]. exists t'. reflexivity.
Qed.

Lemma HasPrefix_head c t o ot :
  HasPrefix (String c t) (String o ot) = true -> c = o /\ HasPrefix t ot = true.
Proof.
  unfold HasPrefix. cbn [String.prefix].
  destruct (ascii_dec o c) as [<-|]; [tauto | discriminate].
Qed.

Lemma HasPrefix_other c t o ot : c <> o -> HasPrefix (String c t) (String o ot) = false.
Proof.
  intros Hne. unfold HasPrefix. cbn [String.prefix].
  destruct (ascii_dec o c); [congruence | reflexivity].
Qed.

Lemma HasPrefix_same c t ot : HasPrefix (String c t) (String c ot) = HasPrefix t ot.
Proof.
  unfold HasPrefix. cbn [String.prefix].
  destruct (ascii_dec c c); [reflexivity | congruence].
Qed.

Lemma renameAt_append_free x : forall t,
  freeOf a x = true -> renameAt a b r (x ++ t) = x ++ renameAt a b r t.
Proof.
  induction x as [|c x' IH]; intros t Hx; [reflexivity |].
  cbn [freeOf] in Hx. apply andb_true_iff in Hx as [Hc Hx'].
  apply negb_true_iff, Ascii.eqb_neq in Hc.
  rewrite !append_String. cbn [renameAt].
  rewrite (HasPrefix_other _ _ _ _ Hc). now rewrite IH.
Qed.

Lemma replaceFrom_renameAt n : forall s,
  (String.length s <= n)%nat ->
  replaceFrom (String a r) (String b r) O s = renameAt a b r s.
Proof.
  induction n as [|n IH]; intros s Hn.
  - destruct s; [reflexivity | cbn in Hn; lia].
  - destruct s as [|c t]; [reflexivity |]. cbn [replaceFrom renameAt].
    destruct (HasPrefix (String c t) (String a r)) eqn:Hp.
    + destruct (HasPrefix_split _ _ Hp) as [t' Heq].
      rewrite append_String in Heq. injection Heq as -> ->.
      cbn [String.length Nat.pred]. rewrite replaceFrom_skip.
      rewrite renameAt_append_free by exact Ha. rewrite append_String.
      f_equal. f_equal. apply IH.
      cbn [String.length] in Hn. rewrite length_append in Hn. lia.
    + f_equal. apply IH. cbn [String.length] in Hn. lia.
Qed.

Lemma ReplaceAll_renameAt s :
  ReplaceAll s (String a r) (String b r) = renameAt a b r s.
Proof. exact (replaceFrom_renameAt (String.length s) s (Nat.le_refl _)). Qed.

Lemma renameAt_length s : String.length (renameAt a b r s) = String.length s.
Proof. induction s as [|c t IH]; [reflexivity |]. cbn. now rewrite IH. Qed.

(** A text free of [b] that starts the renamed text started the text. *)
Lemma renameAt_prefix_back x : forall t,
  freeOf b x = true -> HasPrefix (renameAt a b r t) x = true -> HasPrefix t x = true.
Proof.
  induction x as [|y x' IH]; intros t Hx Hp; [now destruct t |].
  cbn [freeOf] in Hx. apply andb_true_iff in Hx as [Hy Hx'].
  apply negb_true_iff, Ascii.eqb_neq in Hy.
  destruct t as [|c t']; [discriminate |]. cbn [renameAt] in Hp.
  apply HasPrefix_head in Hp as [Hc Hrest].
  destruct (HasPrefix (String c t') (String a r)); [congruence |].
  subst y. rewrite HasPrefix_same. now apply IH.
Qed.

Lemma renameAt_HasPrefix s :
  HasPrefix s (String b r) = false ->
  HasPrefix (renameAt a b r s) (String b r) = HasPrefix s (String a r).
Proof.
  intros Hnew. destruct s as [|c t]; [reflexivity |]. cbn [renameAt].
  destruct (HasPrefix (String c t) (String a r)) eqn:Hold.
  - destruct (HasPrefix_split _ _ Hold) as [t' Heq].
    rewrite append_String in Heq. injection Heq as -> ->.
    rewrite HasPrefix_same, renameAt_append_free by exact Ha.
    apply HasPrefix_append.
  - destruct (ascii_dec c b) as [->|Hc]; [| now apply HasPrefix_other].
    rewrite HasPrefix_same in *.
    destruct (HasPrefix (renameAt a b r t) r) eqn:Hp; [| reflexivity].
    apply renameAt_prefix_back in Hp; [congruence | exact Hb].
Qed.

End Renaming.

Lemma renameAt_roundtrip a b r s :
  freeOf a r = true -> freeOf b r = true ->
  Contains s (String b r) = false ->
  renameAt b a r (renameAt a b r s) = s.
Proof.
  intros Ha Hb. induction s as [|c t IH]; intros Hc; [reflexivity |].
  cbn [Contains] in Hc. apply orb_false_iff in Hc as [Hnew Ht].
  pose proof (renameAt_HasPrefix a b r Ha Hb (String c t) Hnew) as Hp.
  cbn [renameAt] in *. rewrite Hp, (IH Ht). f_equal.
  destruct (HasPrefix (String c t) (String a r)) eqn:Hold; [| reflexivity].
  now apply HasPrefix_head in Hold as [-> _].
Qed.

Lemma renameAt_absent a b r s :
  freeOf b r = true -> a <> b ->
  Contains (renameAt a b r s) (String a r) = false.
Proof.
  intros Hb Hab. induction s as [|c t IH]; [reflexivity |].
  cbn [renameAt Contains]. rewrite IH, orb_false_r.
  destruct (HasPrefix (String c t) (String a r)) eqn:Hold.
  - apply HasPrefix_other. congruence.
  - destruct (ascii_dec c a) as [->|Hc]; [| now apply HasPrefix_other].
    rewrite HasPrefix_same in *.
    destruct (HasPrefix (renameAt a b r t) r) eqn:Hp; [| reflexivity].
    apply renameAt_prefix_back in Hp; [congruence | exact Hb].
Qed.

Lemma headerGet_rewriteFirst (h h' : gmap string (list string)) key f :
  f EmptyString = EmptyString ->
  h' !! key = rewriteFirst f <$> h !! key ->
  headerGet h' key = f (headerGet h key).
Proof.
  intros Hf Hk. unfold headerGet. rewrite Hk.
  destruct (h !! key) as [[|v vs]|]; cbn; congruence.
Qed.

Lemma outgoingCookie_ReplaceAll req :
  outgoingCookie req
  = ReplaceAll (headerGet (reqHeader req) "Cookie") patchedCookieName realCookieName.
Proof.
  unfold outgoingCookie.
  apply (headerGet_rewriteFirst (reqHeader req)); [reflexivity |].
  rewrite patchRequest_header. now apply rewriteFirst_get.
Qed.

Lemma patchResponse_ReplaceAll resp :
  headerGet (respHeader (patchResponse resp)) "Set-Cookie"
  = ReplaceAll (headerGet (respHeader resp) "Set-Cookie") realCookieName patchedCookieName.
Proof.
  apply (headerGet_rewriteFirst (respHeader resp)); [reflexivity |].
  rewrite patchResponse_header. now apply rewriteFirst_get.
Qed.

(** X17: after the renaming no instance of the replaced name is left: the
    request that reaches the transport underneath holds no -sessid in the
    first value of its Cookie header, the response handed back holds no
    /sessid in the first value of its Set-Cookie header, and renaming a second
    time changes nothing. *)
Theorem cookie_shim_leaves_no_instance (req : Request) (resp : Response) :
  Contains (outgoingCookie req) patchedCookieName = false
  /\ Contains (headerGet (respHeader (patchResponse resp)) "Set-Cookie")
       realCookieName = false
  /\ patchRequest (patchRequest req) = patchRequest req
  /\ patchResponse (patchResponse resp) = patchResponse resp.
Proof.
  assert (Hreq : Contains (outgoingCookie req) patchedCookieName = false).
  { rewrite outgoingCookie_ReplaceAll.
    unfold patchedCookieName, realCookieName.
    rewrite (ReplaceAll_renameAt "-" "/" "sessid" eq_refl).
    apply renameAt_absent; [reflexivity | discriminate]. }
  assert (Hresp : Contains (headerGet (respHeader (patchResponse resp)) "Set-Cookie")
                    realCookieName = false).
  { rewrite patchResponse_ReplaceAll.
    unfold patchedCookieName, realCookieName.
    rewrite (ReplaceAll_renameAt "/" "-" "sessid" eq_refl).
    apply renameAt_absent; [reflexivity | discriminate]. }
  split; [exact Hreq | split; [exact Hresp | split]].
  - unfold outgoingCookie in Hreq. unfold patchRequest at 1. now rewrite Hreq.
  - unfold patchResponse at 1. now rewrite Hresp.
Qed.

(** X18: the renaming keeps the length of a value and undoes itself: a
    Set-Cookie value that holds no -sessid of its own, renamed on the way in
    and sent back as a Cookie value, leaves with the text the router sent;
    likewise a Cookie value that holds no /sessid, renamed on the way out and
    renamed back, is the value the store held. *)
Theorem cookie_shim_roundtrip (value : string) :
  String.length (ReplaceAll value realCookieName patchedCookieName) = String.length value
  /\ String.length (ReplaceAll value patchedCookieName realCookieName) = String.length value
  /\ (Contains value patchedCookieName = false ->
      ReplaceAll (ReplaceAll value realCookieName patchedCookieName)
        patchedCookieName realCookieName = value)
  /\ (Contains value realCookieName = false ->
      ReplaceAll (ReplaceAll value patchedCookieName realCookieName)
        realCookieName patchedCookieName = value)
  /\ (forall req resp,
        headerGet (respHeader resp) "Set-Cookie" = value ->
        Contains value patchedCookieName = false ->
        headerGet (reqHeader req) "Cookie"
        = headerGet (respHeader (patchResponse resp)) "Set-Cookie" ->
        outgoingCookie req = value).
Proof.
  unfold patchedCookieName, realCookieName.
  assert (Hback : Contains value "-sessid" = false ->
                  ReplaceAll (ReplaceAll value "/sessid" "-sessid") "-sessid" "/sessid"
                  = value).
  { intros Hc.
    rewrite (ReplaceAll_renameAt "/" "-" "sessid" eq_refl),
      (ReplaceAll_renameAt "-" "/" "sessid" eq_refl).
    now apply renameAt_roundtrip. }
  split; [| split; [| split; [exact Hback | split]]].
  - rewrite (ReplaceAll_renameAt "/" "-" "sessid" eq_refl). apply renameAt_length.
  - rewrite (ReplaceAll_renameAt "-" "/" "sessid" eq_refl). apply renameAt_length.
  - intros Hc.
    rewrite (ReplaceAll_renameAt "-" "/" "sessid" eq_refl),
      (ReplaceAll_renameAt "/" "-" "sessid" eq_refl).
    now apply renameAt_roundtrip.
  - intros req resp Hv Hc Hjar.
    rewrite outgoingCookie_ReplaceAll, Hjar, patchResponse_ReplaceAll, Hv.
    now apply Hback.
Qed.

Lemma cookie_shim_roundtrip_witness :
  ReplaceAll (ReplaceAll "/sessid=abc; Path=/" realCookieName patchedCookieName)
    patchedCookieName realCookieName = "/sessid=abc; Path=/".
Proof.
  apply (proj1 (proj2 (proj2 (cookie_shim_roundtrip "/sessid=abc; Path=/")))).
  reflexivity.
Defined.

(** ** The provider *)

Section ProviderMore.

Context `{Library}.

Lemma Configure_connects env config w :
  IsUnknown (pHost config) = false -> IsUnknown (pPassword config) = false ->
  resolve env "LIVEBOX_HOST" (pHost config) <> EmptyString ->
  resolve env "LIVEBOX_PASSWORD" (pPassword config) <> EmptyString ->
  Configure env config w
  = handOver (NewClient (resolve env "LIVEBOX_HOST" (pHost config))
                        (resolve env "LIVEBOX_PASSWORD" (pPassword config)) w).
Proof.
  intros Hu1 Hu2 Hh Hp. unfold Configure. cbv zeta. rewrite Hu1, Hu2.
  apply String.eqb_neq in Hh, Hp. rewrite Hh, Hp. cbn [app].
  unfold handOver. now destruct (NewClient _ _ w) as [[c|e] w'].
Qed.

(** X19: for the host and for the password alike, a value set in the
    configuration is used whatever the environment holds, and the variable of
    the environment is used when the configuration leaves the value null, in
    each of the four combinations; [Configure] then calls [NewClient] with the
    two values and hands over its client, or its error as a diagnostic. *)
Theorem Configure_precedence (env : gmap string string)
    (config : liveboxProviderModel) (w : World) (h p : string) :
  h <> EmptyString -> p <> EmptyString ->
  pHost config = TFKnown h
  \/ (pHost config = TFNull /\ env !! "LIVEBOX_HOST" = Some h) ->
  pPassword config = TFKnown p
  \/ (pPassword config = TFNull /\ env !! "LIVEBOX_PASSWORD" = Some p) ->
  Configure env config w = handOver (NewClient h p w).
Proof.
  intros Hh Hp Hhost Hpassword.
  assert (Eh : resolve env "LIVEBOX_HOST" (pHost config) = h).
  { unfold resolve, Getenv. destruct Hhost as [-> | [-> ->]]; reflexivity. }
  assert (Ep : resolve env "LIVEBOX_PASSWORD" (pPassword config) = p).
  { unfold resolve, Getenv. destruct Hpassword as [-> | [-> ->]]; reflexivity. }
  rewrite Configure_connects; rewrite ?Eh, ?Ep; try assumption; try reflexivity.
  - destruct Hhost as [-> | [-> _]]; reflexivity.
  - destruct Hpassword as [-> | [-> _]]; reflexivity.
Qed.

(** X20: with a host that is unknown, or null with no variable set, or set
    to the empty text, [Configure] adds its diagnostics, hands over no client
    and makes no call: the world is left as it was.  An unknown host is
    reported twice, as unknown and as missing, even when the environment
    names a host, because what is not null overrides the environment with its
    empty value. *)
Theorem Configure_misconfigured (env : gmap string string)
    (config : liveboxProviderModel) (w : World) :
  (pHost config = TFUnknown ->
   exists diags,
     Configure env config w = ((diags, None), w)
     /\ In (AttributeError "host" "Unknown Livebox Host") diags
     /\ In (AttributeError "host" "Missing Livebox Host") diags)
  /\ (pHost config = TFNull -> env !! "LIVEBOX_HOST" = None ->
      exists diags,
        Configure env config w = ((diags, None), w)
        /\ In (AttributeError "host" "Missing Livebox Host") diags)
  /\ (pHost config = TFKnown EmptyString ->
      exists diags,
        Configure env config w = ((diags, None), w)
        /\ In (AttributeError "host" "Missing Livebox Host") diags)
  /\ (pPassword config = TFNull -> env !! "LIVEBOX_PASSWORD" = None ->
      exists diags,
        Configure env config w = ((diags, None), w)
        /\ In (AttributeError "password" "Missing Livebox Password") diags).
Proof.
  split; [| split; [| split]].
  - intros Hh. unfold Configure. cbv zeta. rewrite Hh. cbn [IsUnknown IsNull resolve negb valueOr].
    cbn [String.eqb app].
    destruct (IsUnknown (pPassword config));
      destruct (String.eqb (resolve env "LIVEBOX_PASSWORD" (pPassword config)) EmptyString);
      cbn [app]; (eexists; split; [reflexivity | cbn; tauto]).
  - intros Hh He. unfold Configure. cbv zeta. rewrite Hh.
    unfold resolve at 1. unfold Getenv at 1. cbn [IsUnknown IsNull negb]. rewrite He.
    cbn [default String.eqb app].
    destruct (IsUnknown (pPassword config)); cbn [app];
      (eexists; split; [reflexivity | cbn; tauto]).
  - intros Hh. unfold Configure. cbv zeta. rewrite Hh.
    cbn [IsUnknown IsNull resolve negb valueOr String.eqb app].
    destruct (IsUnknown (pPassword config)); cbn [app];
      (eexists; split; [reflexivity | cbn; tauto]).
  - intros Hp He. unfold Configure. cbv zeta. rewrite Hp.
    unfold resolve at 2. unfold Getenv at 1. cbn [IsUnknown IsNull negb]. rewrite He.
    cbn [default String.eqb app].
    destruct (IsUnknown (pHost config));
      destruct (String.eqb (resolve env "LIVEBOX_HOST" (pHost config)) EmptyString);
      cbn [app]; (eexists; split; [reflexivity | cbn; tauto]).
Qed.

End ProviderMore.

Lemma Configure_precedence_witness :
  exists c w',
    Configure (H := Bench.bench) Scenario.stale Scenario.passwordOnly []
    = (([], Some c), w')
    /\ host c = "http://livebox" /\ token c = "c0ffee".
Proof.
  rewrite (Configure_precedence (H := Bench.bench) Scenario.stale
             Scenario.passwordOnly [] "http://livebox" "secret"
             ltac:(discriminate) ltac:(discriminate)
             (or_intror (conj eq_refl eq_refl)) (or_introl eq_refl)).
  eexists. eexists. split; [reflexivity | split; reflexivity].
Defined.

Lemma Configure_misconfigured_witness :
  exists diags,
    Configure (H := Bench.bench) Scenario.environment Scenario.pending []
    = ((diags, None), [])
    /\ In (AttributeError "host" "Missing Livebox Host") diags.
Proof.
  destruct (Configure_misconfigured (H := Bench.bench) Scenario.environment
              Scenario.pending []) as (Hunknown & _).
  destruct (Hunknown eq_refl) as (diags & Heq & _ & Hmissing).
  exists diags. split; [exact Heq | exact Hmissing].
Defined.
